(** * CycleTLS-Proxy Python client: a shallow embedding and its properties

    The development follows [examples/python.py]: the data classes
    ([BrowserProfile], [ProxyConfig]), header assembly ([_make_headers]),
    response classification ([_handle_response]), the synchronous client
    ([CycleTLSClient]) on top of a [requests] session with a mounted retry
    strategy, the asynchronous client ([AsyncCycleTLSClient]) and the two
    concurrent example drivers.

    Conventions.  A Python [dict] with string keys is a [gmap string string]
    (only its key/value content matters here, not its insertion order); an
    [Optional[T]] is an [option T]; an [int] is a [Z]; a [str] is a [string]
    of bytes; a raised exception is the [Raise] case of a result type, and
    the network is an explicit log of the wire requests sent so far. *)

From Stdlib Require Import ZArith String Ascii List Lia Permutation.
From stdpp Require Import gmap strings pretty sorting.

Local Open Scope string_scope.
Local Open Scope Z_scope.

(** ** Python values *)

(** [bool(s)] for a [str]: the empty string is falsy. *)
Definition str_truthy (s : string) : bool :=
  match s with
  | EmptyString => false
  | String _ _ => true
  end.

(** [bool(n)] for an [int]: zero is falsy. *)
Definition int_truthy (n : Z) : bool := negb (n =? 0).

(** [bool(d)] for a [dict]: the empty dict is falsy. *)
Definition dict_truthy (d : gmap string string) : bool :=
  negb (bool_decide (d = ∅)).

(** [str(n)] for an [int]. *)
Definition str_of_int (n : Z) : string := pretty n.

(** [d.update(e)]: every key of [e] is written into [d]. *)
Definition dict_update (d e : gmap string string) : gmap string string :=
  e ∪ d.

(** [k in d and d[k]] for an optional dict, as a lookup. *)
Definition opt_lookup (k : string) (d : option (gmap string string))
  : option string :=
  d ≫= (fun m => m !! k).

(** ** Data model *)

Inductive BrowserProfile : Set :=
| CHROME
| CHROME_WINDOWS
| FIREFOX
| FIREFOX_WINDOWS
| SAFARI
| SAFARI_IOS
| EDGE
| OKHTTP
| CHROME_LEGACY_TLS12.

Definition BrowserProfile_value (p : BrowserProfile) : string :=
  match p with
  | CHROME => "chrome"
  | CHROME_WINDOWS => "chrome_windows"
  | FIREFOX => "firefox"
  | FIREFOX_WINDOWS => "firefox_windows"
  | SAFARI => "safari"
  | SAFARI_IOS => "safari_ios"
  | EDGE => "edge"
  | OKHTTP => "okhttp"
  | CHROME_LEGACY_TLS12 => "chrome_legacy_tls12"
  end.

(** [[profile.value for profile in BrowserProfile]] *)
Definition BrowserProfile_values : list string :=
  map BrowserProfile_value
    [CHROME; CHROME_WINDOWS; FIREFOX; FIREFOX_WINDOWS; SAFARI; SAFARI_IOS;
     EDGE; OKHTTP; CHROME_LEGACY_TLS12].

(** [Union[str, BrowserProfile]] *)
Inductive profile_arg : Set :=
| ProfileStr (s : string)
| ProfileEnum (p : BrowserProfile).

Module ProxyConfig.
Record t : Type := mk {
  url : string;
  profile : string;
  session_id : option string;
  upstream_proxy : option string;
  timeout : Z
}.

(** The dataclass constructor followed by [__post_init__]: an enum member
    is replaced by its value, a plain string is kept as it is. *)
Definition __init__ (url : string) (profile : profile_arg)
    (session_id upstream_proxy : option string) (timeout : Z) : t :=
  mk url
    (match profile with
     | ProfileEnum p => BrowserProfile_value p
     | ProfileStr s => s
     end)
    session_id upstream_proxy timeout.
End ProxyConfig.

(** ** Strings *)

(** [needle in hay] *)
Fixpoint str_contains (needle hay : string) : bool :=
  String.prefix needle hay ||
  match hay with
  | EmptyString => false
  | String _ rest => str_contains needle rest
  end.

Definition ascii_lower (c : ascii) : ascii :=
  let n := N_of_ascii c in
  if (65 <=? n)%N && (n <=? 90)%N then ascii_of_N (n + 32) else c.

(** [s.lower()], on the ASCII letters. *)
Fixpoint str_lower (s : string) : string :=
  match s with
  | EmptyString => EmptyString
  | String c rest => String (ascii_lower c) (str_lower rest)
  end.

Definition ascii_upper (c : ascii) : ascii :=
  let n := N_of_ascii c in
  if (97 <=? n)%N && (n <=? 122)%N then ascii_of_N (n - 32) else c.

(** [s.upper()], on the ASCII letters. *)
Fixpoint str_upper (s : string) : string :=
  match s with
  | EmptyString => EmptyString
  | String c rest => String (ascii_upper c) (str_upper rest)
  end.

(** [s.rstrip('/')] *)
Fixpoint rstrip_slash (s : string) : string :=
  match s with
  | EmptyString => EmptyString
  | String c rest =>
      match rstrip_slash rest with
      | EmptyString => if Ascii.eqb c "/" then EmptyString else String c EmptyString
      | rest' => String c rest'
      end
  end.

(** [s.isascii()]: every character is below 128. *)
Fixpoint str_isascii (s : string) : bool :=
  match s with
  | EmptyString => true
  | String c rest => (N_of_ascii c <? 128)%N && str_isascii rest
  end.

(** [str.isspace] on the ASCII range: tab, line feed, vertical tab, form
    feed, carriage return, the four separators 28..31 and the space.
    Python knows more white space outside ASCII (U+0085, U+00A0, ...), so
    [str_strip] below is [str.strip] on strings for which [str_isascii]
    holds; the properties of stripped strings are stated for those. *)
Definition is_space (c : ascii) : bool :=
  let n := N_of_ascii c in
  ((9 <=? n)%N && (n <=? 13)%N) || ((28 <=? n)%N && (n <=? 32)%N).

(** [s.lstrip()] *)
Fixpoint str_lstrip (s : string) : string :=
  match s with
  | EmptyString => EmptyString
  | String c rest => if is_space c then str_lstrip rest else s
  end.

(** [s.rstrip()] *)
Fixpoint str_rstrip (s : string) : string :=
  match s with
  | EmptyString => EmptyString
  | String c rest =>
      match str_rstrip rest with
      | EmptyString => if is_space c then EmptyString else String c EmptyString
      | rest' => String c rest'
      end
  end.

(** [s.strip()] *)
Definition str_strip (s : string) : string := str_rstrip (str_lstrip s).

(** [s.split(sep)] for a one-character separator: never an empty list. *)
Fixpoint str_split (sep : ascii) (s : string) : list string :=
  match s with
  | EmptyString => [EmptyString]
  | String c rest =>
      if Ascii.eqb c sep then EmptyString :: str_split sep rest
      else match str_split sep rest with
           | h :: t => String c h :: t
           | [] => [String c EmptyString]
           end
  end.

(** [c * k]: the character [c] repeated [k] times. *)
Fixpoint str_repeat (c : ascii) (k : nat) : string :=
  match k with
  | O => EmptyString
  | S k' => String c (str_repeat c k')
  end.

(** Every character of [s] is white space. *)
Fixpoint all_space (s : string) : bool :=
  match s with
  | EmptyString => true
  | String c rest => is_space c && all_space rest
  end.

(** [c in s] for a single character. *)
Fixpoint str_has (c : ascii) (s : string) : bool :=
  match s with
  | EmptyString => false
  | String x rest => Ascii.eqb x c || str_has c rest
  end.

(** The first and the last character of [s], if any. *)
Definition str_first (s : string) : option ascii :=
  match s with
  | EmptyString => None
  | String c _ => Some c
  end.

Fixpoint str_last (s : string) : option ascii :=
  match s with
  | EmptyString => None
  | String c EmptyString => Some c
  | String _ rest => str_last rest
  end.

(** The double quote character. *)
Definition double_quote : ascii := ascii_of_N 34.

(** What follows [prefix] in [s], when [s] starts with it. *)
Fixpoint str_after_prefix (prefix s : string) : option string :=
  match prefix with
  | EmptyString => Some s
  | String a prefix' =>
      match s with
      | EmptyString => None
      | String b s' =>
          if Ascii.eqb a b then str_after_prefix prefix' s' else None
      end
  end.

(** The longest prefix without a double quote: what the negated
    character class of the pattern, repeated greedily, consumes. *)
Fixpoint take_until_quote (s : string) : string :=
  match s with
  | EmptyString => EmptyString
  | String c rest =>
      if Ascii.eqb c double_quote then EmptyString
      else String c (take_until_quote rest)
  end.

(** Group 1 of the [re.search] in [get_available_profiles], whose pattern
    is the literal [Available profiles: ] followed by a group of one or
    more characters other than the double quote: at the leftmost position
    where the literal is followed by at least one such character, the run
    of such characters. *)
Fixpoint search_available_profiles (s : string) : option string :=
  let here :=
    match str_after_prefix "Available profiles: " s with
    | Some rest =>
        match take_until_quote rest with
        | EmptyString => None
        | group => Some group
        end
    | None => None
    end in
  match here with
  | Some group => Some group
  | None =>
      match s with
      | EmptyString => None
      | String _ rest => search_available_profiles rest
      end
  end.

(** ** Header assembly

    [CycleTLSClient._make_headers] and [AsyncCycleTLSClient._make_headers]
    have the same body, written once here; it reads [self] only through
    [self.default_timeout]. *)

Definition make_headers_body (default_timeout : Z) (config : ProxyConfig.t)
    (extra_headers : option (gmap string string)) : gmap string string :=
  let headers : gmap string string :=
    <["X-IDENTIFIER" := ProxyConfig.profile config]>
      (<["X-URL" := ProxyConfig.url config]> ∅) in
  let headers :=
    match ProxyConfig.session_id config with
    | Some s => if str_truthy s then <["X-SESSION-ID" := s]> headers else headers
    | None => headers
    end in
  let headers :=
    match ProxyConfig.upstream_proxy config with
    | Some p => if str_truthy p then <["X-PROXY" := p]> headers else headers
    | None => headers
    end in
  let headers :=
    if negb (ProxyConfig.timeout config =? default_timeout)
    then <["X-TIMEOUT" := str_of_int (ProxyConfig.timeout config)]> headers
    else headers in
  match extra_headers with
  | Some extra => if dict_truthy extra then dict_update headers extra else headers
  | None => headers
  end.

(** ** Responses and exceptions *)

(** A [requests.Response], with the attributes the client reads. *)
Record Response : Type := mkResponse {
  status_code : Z;
  reason : string;
  response_url : string;
  text : string
}.

(** Exceptions that leave [requests.Session.request].  The message of a
    [RetryError] keeps the cause the library names ("too many N error
    responses") and leaves out the pool and URL printed around it. *)
Inductive requests_exn : Type :=
| ConnectTimeout (msg : string)     (* a ConnectionError and a Timeout *)
| ReadTimeout (msg : string)        (* a Timeout *)
| ConnectionError (msg : string)
| RetryError (msg : string)         (* a RequestException, nothing more *)
| ValueError (msg : string).        (* refused argument, e.g. the timeout *)

(** [isinstance(e, requests.exceptions.Timeout)] *)
Definition is_Timeout (e : requests_exn) : bool :=
  match e with
  | ConnectTimeout _ | ReadTimeout _ => true
  | _ => false
  end.

(** [isinstance(e, requests.exceptions.ConnectionError)] *)
Definition is_ConnectionError (e : requests_exn) : bool :=
  match e with
  | ConnectTimeout _ | ConnectionError _ => true
  | _ => false
  end.

(** [str(e)].  The message of an exception is the one that the network or
    the loop below gave it; the text that [requests] wraps around the
    cause (pool, URL, [Max retries exceeded]) is not spelled out, so only
    what the client puts in front of [str(e)] is exact. *)
Definition requests_exn_str (e : requests_exn) : string :=
  match e with
  | ConnectTimeout m | ReadTimeout m | ConnectionError m
  | RetryError m | ValueError m => m
  end.

(** Exceptions a caller of the client can see. *)
Inductive exn : Type :=
| CycleTLSError (msg : string)
| CycleTLSTimeoutError (msg : string)
| CycleTLSInvalidProfileError (msg : string)
| RuntimeError (msg : string)
| Uncaught (e : requests_exn).      (* left the client as it was raised *)

Inductive result (A : Type) : Type :=
| Return (a : A)
| Raise (e : exn).
Arguments Return {A} a.
Arguments Raise {A} e.

(** [Response.raise_for_status]: an [HTTPError] for 4xx and 5xx, carrying
    the message [requests] builds; nothing for any other status. *)
Definition raise_for_status (response : Response) : option string :=
  let c := status_code response in
  if (400 <=? c) && (c <? 500) then
    Some (str_of_int c +:+ " Client Error: " +:+ reason response
          +:+ " for url: " +:+ response_url response)
  else if (500 <=? c) && (c <? 600) then
    Some (str_of_int c +:+ " Server Error: " +:+ reason response
          +:+ " for url: " +:+ response_url response)
  else None.

(** ** The transport: a [requests] session with a mounted retry strategy

    This part is library behaviour ([requests], [urllib3]), not repository
    code; it is written out as far as the client's configuration of it
    ([Retry(total=..., backoff_factor=1, status_forcelist=[...])]) decides
    what the client does.  Sleeping between attempts is not represented.

    What is written out is the exchange of a request that the library
    accepts with a proxy that gives final answers.  Three things the
    library also does are outside it: a request the library refuses while
    preparing it (a URL without a scheme, a header value with leading
    white space or a line break) never reaches the loop below; a 3xx
    answer with a [Location] header is followed by a further request to
    that location; and a 413, 429 or 503 answer with a [Retry-After]
    header is tried again for a retryable method even outside
    [status_forcelist]. *)

(** The request handed to the transport. *)
Record WireRequest : Type := mkWireRequest {
  method : string;
  target : string;
  wire_headers : gmap string string;
  transport_timeout : Z;
  kwargs : list (string * string)
}.

(** What one attempt on the network comes back with. *)
Inductive attempt : Type :=
| Responded (r : Response)
| ConnectFailed (msg : string)      (* the proxy cannot be reached *)
| ConnectTimedOut (msg : string)
| ReadTimedOut (msg : string).      (* no response within the timeout *)

(** The network answers the [n]-th attempt (counted from 0) on a given
    wire request. *)
Definition network : Type := nat -> WireRequest -> attempt.

(** [urllib3.util.retry.Retry], the fields the client sets. *)
Record Retry : Type := mkRetry {
  total : Z;
  backoff_factor : Z;
  status_forcelist : list Z
}.

(** [Retry.DEFAULT_ALLOWED_METHODS]: [allowed_methods] is left at its
    default by the client. *)
Definition DEFAULT_ALLOWED_METHODS : list string :=
  ["HEAD"; "GET"; "PUT"; "DELETE"; "OPTIONS"; "TRACE"].

Definition _is_method_retryable (m : string) : bool :=
  bool_decide (str_upper m ∈ DEFAULT_ALLOWED_METHODS).

(** [Retry.is_retry], for a response without a [Retry-After] header (with
    one, 413, 429 and 503 are retried as well). *)
Definition is_retry (strategy : Retry) (m : string) (status : Z) : bool :=
  _is_method_retryable m && bool_decide (status ∈ status_forcelist strategy).

(** A computation that sends on the network: it reads and extends the log
    of wire requests sent so far. *)
Definition IO (A : Type) : Type := list WireRequest -> A * list WireRequest.

Definition io_ret {A} (a : A) : IO A := fun log => (a, log).

Definition io_bind {A B} (c : IO A) (k : A -> IO B) : IO B :=
  fun log => let '(a, log') := c log in k a log'.

Notation "'let*' x := c 'in' k" := (io_bind c (fun x => k))
  (at level 10, x name, c at level 100, k at level 200).

(** Result of [Session.request]: the response or the exception raised. *)
Inductive sent : Type :=
| Got (r : Response)
| Failed (e : requests_exn).

Section Transport.
Variable net : network.

(** One attempt: ask the network and log the wire request. *)
Definition attempt_send (w : WireRequest) : IO attempt :=
  fun log => (net (List.length log) w, (log ++ [w])%list).

(** The adapter's send loop under a [Retry] that still allows [retries]
    more attempts: a response whose status forces a retry and a failed
    connection are tried again until the count is used up; a read timeout
    is tried again only for a retryable method.  When the count is used
    up the loop raises (a forced status: [RetryError]). *)
Fixpoint urlopen (retries : nat) (strategy : Retry) (w : WireRequest)
  : IO sent :=
  let* a := attempt_send w in
  match a with
  | Responded r =>
      if is_retry strategy (method w) (status_code r) then
        match retries with
        | O => io_ret (Failed (RetryError
                 ("too many " +:+ str_of_int (status_code r)
                  +:+ " error responses")))
        | S n => urlopen n strategy w
        end
      else io_ret (Got r)
  | ConnectFailed msg =>
      match retries with
      | O => io_ret (Failed (ConnectionError msg))
      | S n => urlopen n strategy w
      end
  | ConnectTimedOut msg =>
      match retries with
      | O => io_ret (Failed (ConnectTimeout msg))
      | S n => urlopen n strategy w
      end
  | ReadTimedOut msg =>
      if _is_method_retryable (method w) then
        match retries with
        | O => io_ret (Failed (ConnectionError msg))
        | S n => urlopen n strategy w
        end
      else io_ret (Failed (ReadTimeout msg))
  end.

(** [Session.request] through the mounted adapter.  A timeout that is not
    positive is refused before anything is sent; [total] retries are
    allowed after the first attempt. *)
Definition session_request (strategy : Retry) (w : WireRequest) : IO sent :=
  if transport_timeout w <=? 0 then
    io_ret (Failed (ValueError
      ("Attempted to set connect timeout to "
       +:+ str_of_int (transport_timeout w)
       +:+ ", but the timeout cannot be set to a value less than or equal to 0.")))
  else urlopen (Z.to_nat (total strategy)) strategy w.
End Transport.

(** ** The synchronous client *)

Module CycleTLSClient.

Record client : Type := mkClient {
  proxy_url : string;
  default_timeout : Z;
  retry_strategy : Retry      (* of the adapter mounted on [self.session] *)
}.

Definition __init__ (proxy_url : string) (default_timeout max_retries : Z)
  : client :=
  {| proxy_url := rstrip_slash proxy_url;
     default_timeout := default_timeout;
     retry_strategy :=
       {| total := max_retries;
          backoff_factor := 1;
          status_forcelist := [429; 500; 502; 503; 504] |} |}.

(** [max_retries] as it was passed to [__init__]. *)
Definition total_retries (self : client) : Z := total (retry_strategy self).

Definition _make_headers (self : client) (config : ProxyConfig.t)
    (extra_headers : option (gmap string string)) : gmap string string :=
  make_headers_body (default_timeout self) config extra_headers.

Definition _handle_response (response : Response) : result Response :=
  match raise_for_status response with
  | Some _ =>
      if status_code response =? 400 then
        let error_text := text response in
        if str_contains "Invalid identifier" error_text then
          Raise (CycleTLSInvalidProfileError
                   ("Invalid browser profile: " +:+ error_text))
        else if str_contains "timeout" (str_lower error_text) then
          Raise (CycleTLSTimeoutError ("Request timeout: " +:+ error_text))
        else
          Raise (CycleTLSError ("Bad request: " +:+ error_text))
      else if status_code response =? 502 then
        Raise (CycleTLSError ("Upstream request failed: " +:+ text response))
      else
        Raise (CycleTLSError ("HTTP " +:+ str_of_int (status_code response)
                              +:+ ": " +:+ text response))
  | None => Return response
  end.

Section WithNetwork.
Variable net : network.

(** [timeout or self.default_timeout] *)
Definition timeout_or_default (self : client) (timeout : option Z) : Z :=
  match timeout with
  | Some t => if int_truthy t then t else default_timeout self
  | None => default_timeout self
  end.

Definition request (self : client) (method url : string)
    (profile : profile_arg) (session_id upstream_proxy : option string)
    (timeout : option Z) (headers : option (gmap string string))
    (kwargs : list (string * string)) : IO (result Response) :=
  let config :=
    ProxyConfig.__init__ url profile session_id upstream_proxy
      (timeout_or_default self timeout) in
  let proxy_headers := _make_headers self config headers in
  let* r := session_request net (retry_strategy self)
              {| method := method;
                 target := proxy_url self;
                 wire_headers := proxy_headers;
                 transport_timeout := ProxyConfig.timeout config + 5;
                 kwargs := kwargs |} in
  match r with
  | Got response => io_ret (_handle_response response)
  | Failed e =>
      if is_Timeout e then
        io_ret (Raise (CycleTLSTimeoutError
          ("Request timed out after "
           +:+ str_of_int (ProxyConfig.timeout config) +:+ "s")))
      else if is_ConnectionError e then
        io_ret (Raise (CycleTLSError
          ("Connection error: " +:+ requests_exn_str e)))
      else io_ret (Raise (Uncaught e))
  end.
Definition get (self : client) (url : string) (profile : profile_arg)
    (session_id upstream_proxy : option string) (timeout : option Z)
    (headers : option (gmap string string))
    (kwargs : list (string * string)) : IO (result Response) :=
  request self "GET" url profile session_id upstream_proxy timeout
    headers kwargs.

Definition post (self : client) (url : string) (profile : profile_arg)
    (session_id upstream_proxy : option string) (timeout : option Z)
    (headers : option (gmap string string))
    (kwargs : list (string * string)) : IO (result Response) :=
  request self "POST" url profile session_id upstream_proxy timeout
    headers kwargs.

Definition put (self : client) (url : string) (profile : profile_arg)
    (session_id upstream_proxy : option string) (timeout : option Z)
    (headers : option (gmap string string))
    (kwargs : list (string * string)) : IO (result Response) :=
  request self "PUT" url profile session_id upstream_proxy timeout
    headers kwargs.

Definition patch (self : client) (url : string) (profile : profile_arg)
    (session_id upstream_proxy : option string) (timeout : option Z)
    (headers : option (gmap string string))
    (kwargs : list (string * string)) : IO (result Response) :=
  request self "PATCH" url profile session_id upstream_proxy timeout
    headers kwargs.

Definition delete (self : client) (url : string) (profile : profile_arg)
    (session_id upstream_proxy : option string) (timeout : option Z)
    (headers : option (gmap string string))
    (kwargs : list (string * string)) : IO (result Response) :=
  request self "DELETE" url profile session_id upstream_proxy timeout
    headers kwargs.

Definition head (self : client) (url : string) (profile : profile_arg)
    (session_id upstream_proxy : option string) (timeout : option Z)
    (headers : option (gmap string string))
    (kwargs : list (string * string)) : IO (result Response) :=
  request self "HEAD" url profile session_id upstream_proxy timeout
    headers kwargs.

(** [response.json()]: the parsed body, or the decoder's message. *)
Variable json : Type.
Variable json_loads : string -> json + string.

(** [self.session.get(f"{self.proxy_url}/health", timeout=5)], then
    [raise_for_status] and [json]; every exception is wrapped. *)
Definition health_check (self : client) : IO (result json) :=
  let* r := session_request net (retry_strategy self)
              {| method := "GET";
                 target := proxy_url self +:+ "/health";
                 wire_headers := ∅;
                 transport_timeout := 5;
                 kwargs := [] |} in
  match r with
  | Got response =>
      match raise_for_status response with
      | Some e =>
          io_ret (Raise (CycleTLSError ("Health check failed: " +:+ e)))
      | None =>
          match json_loads (text response) with
          | inl j => io_ret (Return j)
          | inr e =>
              io_ret (Raise (CycleTLSError ("Health check failed: " +:+ e)))
          end
      end
  | Failed e =>
      io_ret (Raise (CycleTLSError
        ("Health check failed: " +:+ requests_exn_str e)))
  end.

(** [get_available_profiles]: the health check first (its error is not
    caught), then a probe with a profile no proxy knows.  Only the
    invalid-profile error of the probe is caught: its message is searched
    for the listing, which is split at the commas and stripped.  Without a
    listing, and when the probe returns, the enum's values are the answer;
    any other exception of the probe leaves the method. *)
Definition get_available_profiles (self : client) : IO (result (list string)) :=
  let* health := health_check self in
  match health with
  | Raise e => io_ret (Raise e)
  | Return _ =>
      let* probe := get self "https://httpbin.org/get"
                      (ProfileStr "invalid-profile-test")
                      None None None None [] in
      match probe with
      | Raise (CycleTLSInvalidProfileError msg) =>
          match search_available_profiles msg with
          | Some group =>
              io_ret (Return (map str_strip (str_split "," group)))
          | None => io_ret (Return BrowserProfile_values)
          end
      | Raise e => io_ret (Raise e)
      | Return _ => io_ret (Return BrowserProfile_values)
      end
  end.
End WithNetwork.
End CycleTLSClient.

(** ** Sessions *)

Module SessionContext.

Record t : Type := mk {
  client : CycleTLSClient.client;
  session_id : string
}.

Definition __init__ (client : CycleTLSClient.client) (session_id : string)
  : t := mk client session_id.

Definition __enter__ (self : t) : t := self.

(** [__exit__] has an empty body: nothing is sent and the exception, if
    any, is not suppressed. *)
Definition __exit__ (self : t) : IO unit := io_ret tt.

Section WithNetwork.
Variable net : network.

(** [kwargs['session_id'] = self.session_id], then [self.client.request]:
    a [session_id] the caller passes among the keyword arguments is
    overwritten. *)
Definition request (self : t) (method url : string) (profile : profile_arg)
    (session_id_kwarg upstream_proxy : option string) (timeout : option Z)
    (headers : option (gmap string string))
    (kwargs : list (string * string)) : IO (result Response) :=
  CycleTLSClient.request net (client self) method url profile
    (Some (session_id self)) upstream_proxy timeout headers kwargs.

Definition get (self : t) (url : string) (profile : profile_arg)
    (session_id_kwarg upstream_proxy : option string) (timeout : option Z)
    (headers : option (gmap string string))
    (kwargs : list (string * string)) : IO (result Response) :=
  request self "GET" url profile session_id_kwarg upstream_proxy timeout
    headers kwargs.

Definition post (self : t) (url : string) (profile : profile_arg)
    (session_id_kwarg upstream_proxy : option string) (timeout : option Z)
    (headers : option (gmap string string))
    (kwargs : list (string * string)) : IO (result Response) :=
  request self "POST" url profile session_id_kwarg upstream_proxy timeout
    headers kwargs.

Definition put (self : t) (url : string) (profile : profile_arg)
    (session_id_kwarg upstream_proxy : option string) (timeout : option Z)
    (headers : option (gmap string string))
    (kwargs : list (string * string)) : IO (result Response) :=
  request self "PUT" url profile session_id_kwarg upstream_proxy timeout
    headers kwargs.

Definition patch (self : t) (url : string) (profile : profile_arg)
    (session_id_kwarg upstream_proxy : option string) (timeout : option Z)
    (headers : option (gmap string string))
    (kwargs : list (string * string)) : IO (result Response) :=
  request self "PATCH" url profile session_id_kwarg upstream_proxy timeout
    headers kwargs.

Definition delete (self : t) (url : string) (profile : profile_arg)
    (session_id_kwarg upstream_proxy : option string) (timeout : option Z)
    (headers : option (gmap string string))
    (kwargs : list (string * string)) : IO (result Response) :=
  request self "DELETE" url profile session_id_kwarg upstream_proxy timeout
    headers kwargs.
End WithNetwork.
End SessionContext.

(** ** The asynchronous client *)

Module AsyncCycleTLSClient.

Record client : Type := mkClient {
  proxy_url : string;
  default_timeout : Z;
  session : bool      (* [self.session] is an open [aiohttp.ClientSession] *)
}.

Definition __init__ (proxy_url : string) (default_timeout : Z) : client :=
  {| proxy_url := rstrip_slash proxy_url;
     default_timeout := default_timeout;
     session := false |}.

Definition __aenter__ (self : client) : client :=
  {| proxy_url := proxy_url self;
     default_timeout := default_timeout self;
     session := true |}.

Definition _make_headers (self : client) (config : ProxyConfig.t)
    (extra_headers : option (gmap string string)) : gmap string string :=
  make_headers_body (default_timeout self) config extra_headers.

Section WithNetwork.
Variable net : network.

Definition timeout_or_default (self : client) (timeout : option Z) : Z :=
  match timeout with
  | Some t => if int_truthy t then t else default_timeout self
  | None => default_timeout self
  end.

(** One [aiohttp] exchange under [ClientTimeout(total=...)]: no adapter
    and no retry strategy here; a timeout surfaces as
    [asyncio.TimeoutError], a failed connection as [aiohttp.ClientError].
    The exchange is the one that ends the call: a redirect that [aiohttp]
    follows and a request it sends again on a dropped connection are not
    written out.  The response is returned after its context has been left,
    so a caller can rely on its status line, not on its body. *)
Definition request (self : client) (method url : string)
    (profile : profile_arg) (session_id upstream_proxy : option string)
    (timeout : option Z) (headers : option (gmap string string))
    (kwargs : list (string * string)) : IO (result Response) :=
  if negb (session self) then
    io_ret (Raise (RuntimeError
                     "Client must be used in async context manager"))
  else
    let config :=
      ProxyConfig.__init__ url profile session_id upstream_proxy
        (timeout_or_default self timeout) in
    let proxy_headers := _make_headers self config headers in
    let* a := attempt_send net
                {| method := method;
                   target := proxy_url self;
                   wire_headers := proxy_headers;
                   transport_timeout := ProxyConfig.timeout config + 5;
                   kwargs := kwargs |} in
    match a with
    | Responded response => io_ret (Return response)
    | ConnectTimedOut _ | ReadTimedOut _ =>
        io_ret (Raise (CycleTLSTimeoutError
          ("Request timed out after "
           +:+ str_of_int (ProxyConfig.timeout config) +:+ "s")))
    | ConnectFailed msg =>
        io_ret (Raise (CycleTLSError ("Request error: " +:+ msg)))
    end.

Definition get (self : client) (url : string) (profile : profile_arg)
    (session_id upstream_proxy : option string) (timeout : option Z)
    (headers : option (gmap string string))
    (kwargs : list (string * string)) : IO (result Response) :=
  request self "GET" url profile session_id upstream_proxy timeout
    headers kwargs.

Definition post (self : client) (url : string) (profile : profile_arg)
    (session_id upstream_proxy : option string) (timeout : option Z)
    (headers : option (gmap string string))
    (kwargs : list (string * string)) : IO (result Response) :=
  request self "POST" url profile session_id upstream_proxy timeout
    headers kwargs.
End WithNetwork.
End AsyncCycleTLSClient.

(** ** Concurrent dispatch: the thread pool *)

(** [str(e)] for an exception that reaches [make_request]. *)
Definition exn_str (e : exn) : string :=
  match e with
  | CycleTLSError m | CycleTLSTimeoutError m
  | CycleTLSInvalidProfileError m | RuntimeError m => m
  | Uncaught e' => requests_exn_str e'
  end.

(** The values that occur in the tuples [make_request] returns. *)
Inductive pyval : Type :=
| PInt (n : Z)
| PStr (s : string).

Definition pyval_eqb (a b : pyval) : bool :=
  match a, b with
  | PInt x, PInt y => x =? y
  | PStr x, PStr y => String.eqb x y
  | _, _ => false
  end.

(** [a < b]; [None] is the [TypeError] of comparing an [int] with a [str]. *)
Definition pyval_lt (a b : pyval) : option bool :=
  match a, b with
  | PInt x, PInt y => Some (x <? y)
  | PStr x, PStr y => Some (String.ltb x y)
  | _, _ => None
  end.

Definition tuple3 : Type := pyval * pyval * pyval.

(** [a < b] on tuples: decided at the first position where they differ. *)
Definition tuple_lt (a b : tuple3) : option bool :=
  let '(a1, a2, a3) := a in
  let '(b1, b2, b3) := b in
  if negb (pyval_eqb a1 b1) then pyval_lt a1 b1
  else if negb (pyval_eqb a2 b2) then pyval_lt a2 b2
  else if negb (pyval_eqb a3 b3) then pyval_lt a3 b3
  else Some false.

(** Stable insertion of [x], which came before every element of [l]. *)
Fixpoint insert_sorted (x : tuple3) (l : list tuple3) : option (list tuple3) :=
  match l with
  | [] => Some [x]
  | y :: l' =>
      match tuple_lt y x with
      | None => None
      | Some true => option_map (cons y) (insert_sorted x l')
      | Some false => Some (x :: y :: l')
      end
  end.

(** [sorted(l)]: a stable sort by [<]; [None] when a comparison raises.
    Which comparisons are made is the sorting algorithm's business; with
    pairwise different first components none of them can raise. *)
Fixpoint sorted (l : list tuple3) : option (list tuple3) :=
  match l with
  | [] => Some []
  | x :: l' =>
      match sorted l' with
      | None => None
      | Some s => insert_sorted x s
      end
  end.

(** The [try]/[except] of [make_request] around [client.get]. *)
Definition make_request_outcome (request_id : Z) (r : result Response)
  : tuple3 :=
  match r with
  | Return response =>
      (PInt request_id, PInt (status_code response),
       PInt (Z.of_nat (String.length (text response))))
  | Raise e => (PInt request_id, PStr "ERROR", PStr (exn_str e))
  end.

Definition make_request (net : network) (client : CycleTLSClient.client)
    (request_id : Z) : IO tuple3 :=
  let* r := CycleTLSClient.get net client
              ("https://httpbin.org/get?request_id=" +:+ str_of_int request_id)
              (ProfileEnum CHROME)
              (Some ("concurrent-" +:+ str_of_int request_id))
              None None None [] in
  io_ret (make_request_outcome request_id r).

(** The pool of [run_concurrent_examples].  [got i] is what [client.get]
    gave the worker of request [i]; [completion] is the order in which
    [as_completed] yields the futures [0 .. 9].  [results] is collected in
    that order; the loop that reports runs over [sorted(results)]. *)
Definition collect_results (got : nat -> result Response)
    (completion : list nat) : list tuple3 :=
  map (fun i => make_request_outcome (Z.of_nat i) (got i)) completion.

Definition successful (results : list tuple3) : nat :=
  List.length
    (List.filter (fun '(_, status, _) =>
                    match status with
                    | PInt n => n =? 200
                    | PStr _ => false
                    end) results).

Definition run_concurrent_examples (got : nat -> result Response)
    (completion : list nat) : nat * option (list tuple3) :=
  let results := collect_results got completion in
  (successful results, sorted results).

(** ** Concurrent dispatch: the event loop *)

(** [await asyncio.gather] over the awaitables with [return_exceptions=False], as the
    awaiting task sees it (library behaviour).  [children] are the results
    the awaitables end with, [completion] the order in which they finish.
    Each completion runs the done-callback: an exception is handed to the
    awaiting task at once; otherwise the count goes up, and when it reaches
    the number of children the results are read off the children in their
    own order.  [None]: the gather is still pending. *)
Fixpoint gather_loop {A} (children : list (result A)) (completion : list nat)
    (nfinished : nat) : option (result (list A)) :=
  match completion with
  | [] => None
  | i :: rest =>
      match children !! i with
      | None => gather_loop children rest nfinished
      | Some (Raise e) => Some (Raise e)
      | Some (Return _) =>
          if (S nfinished =? List.length children)%nat then
            Some (fold_right
                    (fun c acc =>
                       match c, acc with
                       | Return a, Return l => Return (a :: l)
                       | Raise e, _ => Raise e
                       | _, Raise e => Raise e
                       end) (Return []) children)
          else gather_loop children rest (S nfinished)
      end
  end.

Definition gather {A} (children : list (result A)) (completion : list nat)
  : option (result (list A)) :=
  match children with
  | [] => Some (Return [])
  | _ => gather_loop children completion 0
  end.

(** [enumerate(l)] *)
Definition enumerate {A} (l : list A) : list (nat * A) :=
  combine (seq 0 (List.length l)) l.

(** The batch of [run_async_examples]: five [client.get] coroutines are
    gathered and the responses reported by position; any exception leaves
    the [try] block.  [got i] is what the coroutine of request [i] ends
    with. *)
Definition run_async_batch (got : nat -> result Response)
    (completion : list nat) : option (result (list (nat * Response))) :=
  let tasks := map got (seq 0 5) in
  match gather tasks completion with
  | None => None
  | Some (Return responses) => Some (Return (enumerate responses))
  | Some (Raise e) => Some (Raise e)
  end.

(** ** The wire requests of the two calls, named

    [request_wire] is the argument list of the [self.session.request] call
    in [CycleTLSClient.request]; [health_wire] is that of the
    [self.session.get] call in [health_check]. *)

Definition request_wire (self : CycleTLSClient.client) (method url : string)
    (profile : profile_arg) (session_id upstream_proxy : option string)
    (timeout : option Z) (headers : option (gmap string string))
    (kwargs : list (string * string)) : WireRequest :=
  let config :=
    ProxyConfig.__init__ url profile session_id upstream_proxy
      (CycleTLSClient.timeout_or_default self timeout) in
  {| method := method;
     target := CycleTLSClient.proxy_url self;
     wire_headers := CycleTLSClient._make_headers self config headers;
     transport_timeout := ProxyConfig.timeout config + 5;
     kwargs := kwargs |}.

Definition health_wire (self : CycleTLSClient.client) : WireRequest :=
  {| method := "GET";
     target := CycleTLSClient.proxy_url self +:+ "/health";
     wire_headers := ∅;
     transport_timeout := 5;
     kwargs := [] |}.


(** The wire request of the [client.get] call in [make_request]. *)
Definition make_request_wire (client : CycleTLSClient.client)
    (request_id : Z) : WireRequest :=
  request_wire client "GET"
    ("https://httpbin.org/get?request_id=" +:+ str_of_int request_id)
    (ProfileEnum CHROME)
    (Some ("concurrent-" +:+ str_of_int request_id))
    None None None [].

(** A network on which every attempt is answered with the same status. *)
Definition always_status (s : Z) (body : string) : network :=
  fun _ w =>
    Responded {| status_code := s; reason := ""; response_url := target w;
                 text := body |}.

(** A network on which connecting to the proxy always times out. *)
Definition connect_times_out (msg : string) : network :=
  fun _ _ => ConnectTimedOut msg.

(** A network on which the proxy cannot be reached. *)
Definition unreachable (msg : string) : network :=
  fun _ _ => ConnectFailed msg.

(** ** Concrete inputs used by the examples below *)

Definition ex_client : CycleTLSClient.client :=
  CycleTLSClient.__init__ "http://localhost:8080" 30 3.

Definition ex_async_client : AsyncCycleTLSClient.client :=
  AsyncCycleTLSClient.__aenter__
    (AsyncCycleTLSClient.__init__ "http://localhost:8080" 30).

Definition ex_config : ProxyConfig.t :=
  ProxyConfig.__init__ "https://httpbin.org/get" (ProfileEnum CHROME)
    None None 30.

Definition ex_override_routing : gmap string string :=
  {[ "X-URL" := "https://elsewhere.example/"; "X-IDENTIFIER" := "firefox" ]}.

Definition ex_override_timeout : gmap string string :=
  {[ "X-TIMEOUT" := "1" ]}.

Definition ex_override_session : gmap string string :=
  {[ "X-SESSION-ID" := "from-extra" ]}.

Definition ex_response_both_markers : Response :=
  {| status_code := 400;
     reason := "Bad Request";
     response_url := "http://localhost:8080/";
     text := "Invalid identifier: upstream timeout" |}.


Definition ex_net_ok : network := always_status 200 "{}".

Definition ex_net_502 : network := always_status 502 "bad gateway".

Definition ex_net_503 : network := always_status 503 "busy".

(** A healthy proxy that rejects the second request it gets as an
    invalid identifier and lists the profiles it has. *)
Definition ex_net_discovery : network :=
  fun n w =>
    match n with
    | O => Responded {| status_code := 200; reason := "OK";
                        response_url := target w; text := "{}" |}
    | S _ =>
        Responded
          {| status_code := 400; reason := "Bad Request";
             response_url := target w;
             text := "Invalid identifier: invalid-profile-test. Available profiles: chrome, firefox ,edge" |}
    end.

(** A stand-in for the JSON decoder: every body parses. *)
Definition ex_json_loads (body : string) : string + string := inl body.

(** Five coroutines of which the second and the fourth fail. *)
Definition ex_async_got (i : nat) : result Response :=
  match i with
  | 1%nat => Raise (CycleTLSError "Request error: second")
  | 3%nat => Raise (CycleTLSTimeoutError "Request timed out after 30s")
  | _ => Return {| status_code := 200; reason := "OK";
                   response_url := "http://localhost:8080";
                   text := "{}" |}
  end.

(** Ten pool requests that are all answered. *)
Definition ex_pool_got (i : nat) : result Response :=
  Return {| status_code := 200; reason := "OK";
            response_url := "http://localhost:8080";
            text := "{}" |}.

(** * Properties *)

(** ** The Python values on small inputs *)

Example str_of_int_decimal :
  str_of_int 45 = "45" /\ str_of_int 0 = "0" /\ str_of_int (-3) = "-3".
Proof. repeat split; reflexivity. Qed.

Example rstrip_slash_trailing :
  rstrip_slash "http://localhost:8080//" = "http://localhost:8080"
  /\ rstrip_slash "http://proxy/a/b" = "http://proxy/a/b"
  /\ rstrip_slash "//" = "".
Proof. repeat split; reflexivity. Qed.

Example str_lower_contains :
  str_contains "timeout" (str_lower "Gateway TimeOut") = true
  /\ str_contains "Invalid identifier" "invalid identifier" = false
  /\ str_contains "" "" = true.
Proof. repeat split; reflexivity. Qed.

Example retryable_methods :
  _is_method_retryable "GET" = true
  /\ _is_method_retryable "get" = true
  /\ _is_method_retryable "POST" = false
  /\ _is_method_retryable "PATCH" = false.
Proof. repeat split; reflexivity. Qed.

Example sorted_by_request_id :
  sorted [(PInt 2, PStr "ERROR", PStr "boom"); (PInt 0, PInt 200, PInt 5);
          (PInt 1, PInt 200, PInt 7)]
  = Some [(PInt 0, PInt 200, PInt 5); (PInt 1, PInt 200, PInt 7);
          (PInt 2, PStr "ERROR", PStr "boom")]
  /\ sorted [(PInt 1, PStr "ERROR", PStr "boom"); (PInt 1, PInt 200, PInt 5)]
     = None.
Proof. split; reflexivity. Qed.

(** ** Header assembly *)

Section MakeHeaders.
Implicit Types (config : ProxyConfig.t) (extra : gmap string string).

Lemma dict_truthy_false extra : dict_truthy extra = false -> extra = ∅.
Proof.
  unfold dict_truthy. case_bool_decide; [done | discriminate].
Qed.

(** A key the caller passes is read back from the caller's dict; any
    other key is read from what the config alone assembles. *)
Lemma lookup_make_headers dt config (extra_headers : option (gmap string string)) k :
  make_headers_body dt config extra_headers !! k =
  match opt_lookup k extra_headers with
  | Some v => Some v
  | None => make_headers_body dt config None !! k
  end.
Proof.
  destruct extra_headers as [extra|]; [|reflexivity].
  unfold make_headers_body, opt_lookup; cbn [mbind option_bind].
  destruct (dict_truthy extra) eqn:Ht.
  - unfold dict_update. rewrite lookup_union.
    destruct (extra !! k); [|by rewrite (left_id None _)].
    by destruct (_ !! k).
  - apply dict_truthy_false in Ht as ->. by rewrite lookup_empty.
Qed.

Ltac base_lookup :=
  unfold make_headers_body;
  repeat match goal with
         | |- context [match ?o with Some _ => _ | None => _ end] =>
             destruct o
         | |- context [if ?b then _ else _] => destruct b eqn:?
         end;
  simplify_map_eq; try done.

Lemma lookup_base_url dt config :
  make_headers_body dt config None !! "X-URL" = Some (ProxyConfig.url config).
Proof. base_lookup. Qed.

Lemma lookup_base_identifier dt config :
  make_headers_body dt config None !! "X-IDENTIFIER"
  = Some (ProxyConfig.profile config).
Proof. base_lookup. Qed.

Lemma lookup_base_session dt config :
  make_headers_body dt config None !! "X-SESSION-ID" =
  match ProxyConfig.session_id config with
  | Some s => if str_truthy s then Some s else None
  | None => None
  end.
Proof. base_lookup. Qed.

Lemma lookup_base_timeout dt config :
  make_headers_body dt config None !! "X-TIMEOUT" =
  if ProxyConfig.timeout config =? dt then None
  else Some (str_of_int (ProxyConfig.timeout config)).
Proof. base_lookup. Qed.
End MakeHeaders.

(** C1 (as amended).  Both clients put the target URL under [X-URL] and the
    profile identifier under [X-IDENTIFIER], unless the caller's extra
    headers contain that key: then the caller's value is the one returned. *)
Theorem make_headers_routing_headers
    (self : CycleTLSClient.client) (aself : AsyncCycleTLSClient.client)
    (config : ProxyConfig.t) (extra_headers : option (gmap string string)) :
  let from_config k v :=
    match opt_lookup k extra_headers with Some v' => Some v' | None => Some v end in
  CycleTLSClient._make_headers self config extra_headers !! "X-URL"
    = from_config "X-URL" (ProxyConfig.url config)
  ∧ CycleTLSClient._make_headers self config extra_headers !! "X-IDENTIFIER"
    = from_config "X-IDENTIFIER" (ProxyConfig.profile config)
  ∧ AsyncCycleTLSClient._make_headers aself config extra_headers !! "X-URL"
    = from_config "X-URL" (ProxyConfig.url config)
  ∧ AsyncCycleTLSClient._make_headers aself config extra_headers !! "X-IDENTIFIER"
    = from_config "X-IDENTIFIER" (ProxyConfig.profile config).
Proof.
  cbv zeta.
  unfold CycleTLSClient._make_headers, AsyncCycleTLSClient._make_headers.
  rewrite !(lookup_make_headers _ _ extra_headers).
  rewrite !lookup_base_url, !lookup_base_identifier.
  done.
Qed.

(** C1 as stated fails: an extra header named like a routing header
    replaces the routing value, in both clients. *)
Lemma make_headers_extra_overrides_routing :
  CycleTLSClient._make_headers ex_client ex_config (Some ex_override_routing)
    !! "X-URL" = Some "https://elsewhere.example/"
  ∧ CycleTLSClient._make_headers ex_client ex_config (Some ex_override_routing)
    !! "X-URL" ≠ Some (ProxyConfig.url ex_config)
  ∧ AsyncCycleTLSClient._make_headers ex_async_client ex_config
      (Some ex_override_routing) !! "X-IDENTIFIER" = Some "firefox"
  ∧ AsyncCycleTLSClient._make_headers ex_async_client ex_config
      (Some ex_override_routing) !! "X-IDENTIFIER"
    ≠ Some (ProxyConfig.profile ex_config).
Proof. vm_compute. repeat split; congruence. Qed.

(** C6 (as amended).  [X-TIMEOUT] is read from the caller's extra headers
    when they contain it; otherwise it is present exactly when the config's
    timeout differs from the client's default, with the decimal string of
    that timeout as its value. *)
Theorem make_headers_timeout_header
    (self : CycleTLSClient.client) (aself : AsyncCycleTLSClient.client)
    (config : ProxyConfig.t) (extra_headers : option (gmap string string)) :
  CycleTLSClient._make_headers self config extra_headers !! "X-TIMEOUT" =
    match opt_lookup "X-TIMEOUT" extra_headers with
    | Some v => Some v
    | None =>
        if ProxyConfig.timeout config =? CycleTLSClient.default_timeout self
        then None else Some (str_of_int (ProxyConfig.timeout config))
    end
  ∧ AsyncCycleTLSClient._make_headers aself config extra_headers !! "X-TIMEOUT" =
    match opt_lookup "X-TIMEOUT" extra_headers with
    | Some v => Some v
    | None =>
        if ProxyConfig.timeout config =? AsyncCycleTLSClient.default_timeout aself
        then None else Some (str_of_int (ProxyConfig.timeout config))
    end.
Proof.
  unfold CycleTLSClient._make_headers, AsyncCycleTLSClient._make_headers.
  by rewrite !(lookup_make_headers _ _ extra_headers), !lookup_base_timeout.
Qed.

(** C6 as stated fails: with the timeout equal to the default, an
    [X-TIMEOUT] among the extra headers is still in the result. *)
Lemma make_headers_timeout_header_from_extra :
  ProxyConfig.timeout ex_config = CycleTLSClient.default_timeout ex_client
  ∧ CycleTLSClient._make_headers ex_client ex_config (Some ex_override_timeout)
      !! "X-TIMEOUT" = Some "1".
Proof. vm_compute. split; reflexivity. Qed.

(** C9 (as amended).  [X-SESSION-ID] is read from the caller's extra headers
    when they contain it; otherwise it is present exactly when the config's
    session identifier is a non-empty string.  An empty identifier gives
    the same headers as no identifier. *)
Theorem make_headers_session_header
    (self : CycleTLSClient.client) (aself : AsyncCycleTLSClient.client)
    (url profile : string) (session_id upstream_proxy : option string)
    (timeout : Z) (extra_headers : option (gmap string string)) :
  let config := ProxyConfig.mk url profile session_id upstream_proxy timeout in
  let expected :=
    match opt_lookup "X-SESSION-ID" extra_headers with
    | Some v => Some v
    | None =>
        match session_id with
        | Some s => if str_truthy s then Some s else None
        | None => None
        end
    end in
  CycleTLSClient._make_headers self config extra_headers !! "X-SESSION-ID"
    = expected
  ∧ AsyncCycleTLSClient._make_headers aself config extra_headers !! "X-SESSION-ID"
    = expected
  ∧ CycleTLSClient._make_headers self
      (ProxyConfig.mk url profile (Some "") upstream_proxy timeout) extra_headers
    = CycleTLSClient._make_headers self
      (ProxyConfig.mk url profile None upstream_proxy timeout) extra_headers
  ∧ AsyncCycleTLSClient._make_headers aself
      (ProxyConfig.mk url profile (Some "") upstream_proxy timeout) extra_headers
    = AsyncCycleTLSClient._make_headers aself
      (ProxyConfig.mk url profile None upstream_proxy timeout) extra_headers.
Proof.
  cbv zeta.
  unfold CycleTLSClient._make_headers, AsyncCycleTLSClient._make_headers.
  rewrite !(lookup_make_headers _ _ extra_headers), !lookup_base_session.
  done.
Qed.

(** C9 as stated fails: with no session identifier in the config, an
    [X-SESSION-ID] among the extra headers is still in the result. *)
Lemma make_headers_session_header_from_extra :
  ProxyConfig.session_id ex_config = None
  ∧ CycleTLSClient._make_headers ex_client ex_config (Some ex_override_session)
      !! "X-SESSION-ID" = Some "from-extra".
Proof. vm_compute. split; reflexivity. Qed.

(** ** Response classification *)

Lemma prefix_cons c n c' h :
  String.prefix (String c n) (String c' h)
  = if ascii_dec c c' then String.prefix n h else false.
Proof. reflexivity. Qed.

Lemma prefix_inv (n h : string) :
  String.prefix n h = true -> exists b, h = n +:+ b.
Proof.
  revert h. induction n as [|c n IH]; intros h H.
  - by exists h.
  - destruct h as [|c' h]; [done|]. rewrite prefix_cons in H.
    destruct (ascii_dec c c') as [->|]; [|done].
    destruct (IH _ H) as [b ->]. by exists b.
Qed.

Lemma prefix_app (n b : string) : String.prefix n (n +:+ b) = true.
Proof.
  induction n as [|c n IH]; [by destruct b|].
  change (String c n +:+ b) with (String c (n +:+ b)).
  rewrite prefix_cons. by destruct (ascii_dec c c).
Qed.

Lemma str_contains_nil n : str_contains n "" = String.prefix n "".
Proof. cbn [str_contains]. apply orb_false_r. Qed.

Lemma str_contains_cons n c h :
  str_contains n (String c h)
  = String.prefix n (String c h) || str_contains n h.
Proof. reflexivity. Qed.

(** [str_contains] is the substring test. *)
Lemma str_contains_spec (n h : string) :
  str_contains n h = true <-> exists a b, h = a +:+ n +:+ b.
Proof.
  induction h as [|c h IH].
  - rewrite str_contains_nil. split.
    + intros H. destruct (prefix_inv _ _ H) as [b ->]. by exists "", b.
    + intros ([|c a] & b & H); [|discriminate H].
      change ("" = n +:+ b) in H. rewrite H. apply prefix_app.
  - rewrite str_contains_cons, orb_true_iff, IH. split.
    + intros [H | (a & b & ->)].
      * destruct (prefix_inv _ _ H) as [b ->]. by exists "", b.
      * by exists (String c a), b.
    + intros ([|c' a] & b & H).
      * left. change (String c h = n +:+ b) in H. rewrite H. apply prefix_app.
      * right. change (String c h = String c' (a +:+ n +:+ b)) in H.
        injection H as -> ->. by exists a, b.
Qed.

(** C10.  On a 400 the invalid-identifier marker is looked for first: a
    body with that marker raises the invalid-profile error whatever else it
    contains; the timeout error is raised for a timeout marker without it,
    and is raised by [_handle_response] in no other case. *)
Theorem handle_response_400_precedence (response : Response) :
  (status_code response = 400 ->
   str_contains "Invalid identifier" (text response) = true ->
   CycleTLSClient._handle_response response
   = Raise (CycleTLSInvalidProfileError
              ("Invalid browser profile: " +:+ text response)))
  ∧ (status_code response = 400 ->
     str_contains "Invalid identifier" (text response) = false ->
     str_contains "timeout" (str_lower (text response)) = true ->
     CycleTLSClient._handle_response response
     = Raise (CycleTLSTimeoutError ("Request timeout: " +:+ text response)))
  ∧ (forall m,
       CycleTLSClient._handle_response response = Raise (CycleTLSTimeoutError m) ->
       status_code response = 400
       ∧ str_contains "Invalid identifier" (text response) = false
       ∧ str_contains "timeout" (str_lower (text response)) = true).
Proof.
  unfold CycleTLSClient._handle_response, raise_for_status.
  split; [|split].
  - intros -> ->. reflexivity.
  - intros -> -> ->. reflexivity.
  - intros m.
    repeat match goal with
           | |- context [if ?b then _ else _] => destruct b eqn:?
           end; try discriminate; intros _; repeat split; lia.
Qed.

Lemma handle_response_400_precedence_witness :
  status_code ex_response_both_markers = 400
  ∧ str_contains "Invalid identifier" (text ex_response_both_markers) = true
  ∧ str_contains "timeout" (str_lower (text ex_response_both_markers)) = true
  ∧ CycleTLSClient._handle_response ex_response_both_markers
    = Raise (CycleTLSInvalidProfileError
               "Invalid browser profile: Invalid identifier: upstream timeout").
Proof.
  do 3 (split; [reflexivity|]).
  apply (proj1 (handle_response_400_precedence ex_response_both_markers));
    reflexivity.
Defined.

(** ** The transport *)

Section TransportFacts.
Variable net : network.

Lemma urlopen_unfold retries strategy w log :
  urlopen net retries strategy w log =
  let log' := (log ++ [w])%list in
  let again (last : requests_exn) :=
    match retries with
    | O => (Failed last, log')
    | S n => urlopen net n strategy w log'
    end in
  match net (List.length log) w with
  | Responded r =>
      if is_retry strategy (method w) (status_code r) then
        again (RetryError ("too many " +:+ str_of_int (status_code r)
                           +:+ " error responses"))
      else (Got r, log')
  | ConnectFailed msg => again (ConnectionError msg)
  | ConnectTimedOut msg => again (ConnectTimeout msg)
  | ReadTimedOut msg =>
      if _is_method_retryable (method w) then again (ConnectionError msg)
      else (Failed (ReadTimeout msg), log')
  end.
Proof.
  destruct retries; cbn [urlopen]; unfold io_bind, attempt_send, io_ret;
    cbv zeta; destruct (net _ w); try reflexivity;
    repeat match goal with
           | |- context [if ?b then _ else _] => destruct b
           end; reflexivity.
Qed.

Lemma app_repeat_cons {A} (l : list A) x k :
  ((l ++ [x]) ++ repeat x k)%list = (l ++ repeat x (S k))%list.
Proof. by rewrite <- app_assoc. Qed.

(** The loop sends the same wire request between once and [retries + 1]
    times, and nothing else. *)
Lemma urlopen_log retries strategy w log :
  exists k, (1 <= k <= S retries)%nat
            /\ snd (urlopen net retries strategy w log)
               = (log ++ repeat w k)%list.
Proof.
  revert log. induction retries as [|n IH]; intros log;
    rewrite urlopen_unfold; cbv zeta;
    destruct (net _ w);
    repeat match goal with
           | |- context [if ?b then _ else _] => destruct b
           end; cbn [snd];
    try (exists 1%nat; split; [lia | reflexivity]);
    destruct (IH (log ++ [w])%list) as (k & Hk & ->);
    exists (S k); (split; [lia | apply app_repeat_cons]).
Qed.

(** A first answer whose status does not force a retry ends the loop. *)
Lemma urlopen_final retries strategy w log r :
  net (List.length log) w = Responded r ->
  is_retry strategy (method w) (status_code r) = false ->
  urlopen net retries strategy w log = (Got r, (log ++ [w])%list).
Proof.
  intros Hnet Hr. rewrite urlopen_unfold; cbv zeta. by rewrite Hnet, Hr.
Qed.

(** When every answer carries a status that forces a retry, all allowed
    attempts are made and the loop raises. *)
Lemma urlopen_forced retries strategy w log s :
  (forall n w', exists r, net n w' = Responded r /\ status_code r = s) ->
  is_retry strategy (method w) s = true ->
  urlopen net retries strategy w log =
  (Failed (RetryError ("too many " +:+ str_of_int s +:+ " error responses")),
   (log ++ repeat w (S retries))%list).
Proof.
  intros Hnet Hr. revert log.
  induction retries as [|n IH]; intros log;
    rewrite urlopen_unfold; cbv zeta;
    destruct (Hnet (List.length log) w) as (r & -> & ->); rewrite Hr.
  - reflexivity.
  - rewrite IH. by rewrite app_repeat_cons.
Qed.

(** When the proxy cannot be reached at all, all allowed attempts are
    made and the loop raises a connection error. *)
Lemma urlopen_unreachable retries strategy w log msg :
  (forall n w', net n w' = ConnectFailed msg) ->
  urlopen net retries strategy w log =
  (Failed (ConnectionError msg), (log ++ repeat w (S retries))%list).
Proof.
  intros Hnet. revert log.
  induction retries as [|n IH]; intros log;
    rewrite urlopen_unfold; cbv zeta; rewrite Hnet.
  - reflexivity.
  - rewrite IH. by rewrite app_repeat_cons.
Qed.

(** [request] is the session call on [request_wire], then the handlers. *)
Lemma request_unfold self method url profile session_id upstream_proxy
    timeout headers kwargs log :
  let w := request_wire self method url profile session_id upstream_proxy
             timeout headers kwargs in
  let t := CycleTLSClient.timeout_or_default self timeout in
  CycleTLSClient.request net self method url profile session_id
    upstream_proxy timeout headers kwargs log =
  let '(r, log') :=
    session_request net (CycleTLSClient.retry_strategy self) w log in
  (match r with
   | Got response => CycleTLSClient._handle_response response
   | Failed e =>
       if is_Timeout e then
         Raise (CycleTLSTimeoutError
                  ("Request timed out after " +:+ str_of_int t +:+ "s"))
       else if is_ConnectionError e then
         Raise (CycleTLSError ("Connection error: " +:+ requests_exn_str e))
       else Raise (Uncaught e)
   end, log').
Proof.
  cbv zeta. unfold CycleTLSClient.request, request_wire, io_bind.
  cbn [ProxyConfig.timeout ProxyConfig.__init__].
  destruct (session_request net _ _ log) as [[response|e] log'];
    [reflexivity|].
  unfold io_ret. by destruct (is_Timeout e), (is_ConnectionError e).
Qed.

Lemma session_request_positive strategy w log :
  0 < transport_timeout w ->
  session_request net strategy w log
  = urlopen net (Z.to_nat (total strategy)) strategy w log.
Proof.
  intros H. unfold session_request.
  destruct (transport_timeout w <=? 0) eqn:E; [lia | reflexivity].
Qed.
End TransportFacts.

(** ** The synchronous client on the transport *)

Section RequestFacts.
Variable net : network.

Lemma request_log self method url profile session_id upstream_proxy
    timeout headers kwargs log :
  snd (CycleTLSClient.request net self method url profile session_id
         upstream_proxy timeout headers kwargs log)
  = snd (session_request net (CycleTLSClient.retry_strategy self)
           (request_wire self method url profile session_id upstream_proxy
              timeout headers kwargs) log).
Proof.
  pose proof (request_unfold net self method url profile session_id
                upstream_proxy timeout headers kwargs log) as H.
  cbv zeta in H. rewrite H. by destruct (session_request _ _ _ _).
Qed.

Lemma request_wire_timeout self method url profile session_id upstream_proxy
    timeout headers kwargs :
  transport_timeout (request_wire self method url profile session_id
                       upstream_proxy timeout headers kwargs)
  = CycleTLSClient.timeout_or_default self timeout + 5.
Proof. reflexivity. Qed.

Lemma timeout_or_default_positive self t :
  0 < t -> CycleTLSClient.timeout_or_default self (Some t) = t.
Proof.
  intros H. unfold CycleTLSClient.timeout_or_default, int_truthy.
  destruct (t =? 0) eqn:E; [lia | reflexivity].
Qed.

(** With an effective timeout above -5 the session call goes to the
    network: the wire request is sent at least once. *)
Lemma request_sends self method url profile session_id upstream_proxy
    timeout headers kwargs log :
  -5 < CycleTLSClient.timeout_or_default self timeout ->
  exists k, (1 <= k <= S (Z.to_nat (total (CycleTLSClient.retry_strategy self))))%nat
    /\ snd (CycleTLSClient.request net self method url profile session_id
              upstream_proxy timeout headers kwargs log)
       = (log ++ repeat (request_wire self method url profile session_id
                           upstream_proxy timeout headers kwargs) k)%list.
Proof.
  intros Ht. rewrite request_log, session_request_positive.
  - apply urlopen_log.
  - rewrite request_wire_timeout. lia.
Qed.

Lemma is_retry_init proxy dt max_retries m s :
  is_retry (CycleTLSClient.retry_strategy
              (CycleTLSClient.__init__ proxy dt max_retries)) m s
  = _is_method_retryable m && bool_decide (s ∈ [429; 500; 502; 503; 504]).
Proof. reflexivity. Qed.

(** Every answer has status [s], [s] is in the force list and the method
    is one the retry strategy retries: [max_retries] retries follow the
    first attempt, then the retry error leaves [request] uncaught. *)
Lemma request_forced_status proxy dt max_retries verb url profile
    session_id upstream_proxy timeout headers kwargs log s :
  let self := CycleTLSClient.__init__ proxy dt max_retries in
  -5 < CycleTLSClient.timeout_or_default self timeout ->
  (forall n w, exists r, net n w = Responded r /\ status_code r = s) ->
  s ∈ [429; 500; 502; 503; 504] ->
  _is_method_retryable verb = true ->
  CycleTLSClient.request net self verb url profile session_id
    upstream_proxy timeout headers kwargs log
  = (Raise (Uncaught (RetryError
              ("too many " +:+ str_of_int s +:+ " error responses"))),
     (log ++ repeat (request_wire self verb url profile session_id
                       upstream_proxy timeout headers kwargs)
               (S (Z.to_nat max_retries)))%list).
Proof.
  intros self Ht Hnet Hs Hm.
  pose proof (request_unfold net self verb url profile session_id
                upstream_proxy timeout headers kwargs log) as H.
  cbv zeta in H. rewrite H. clear H.
  rewrite session_request_positive by (rewrite request_wire_timeout; lia).
  rewrite (urlopen_forced net _ _ _ _ s Hnet).
  - reflexivity.
  - subst self. rewrite is_retry_init.
    change (method (request_wire _ verb _ _ _ _ _ _ _)) with verb.
    rewrite Hm. by apply bool_decide_eq_true_2.
Qed.

(** Same network, a method the retry strategy does not retry: the first
    answer is the last and goes to [_handle_response]. *)
Lemma request_unforced_status proxy dt max_retries verb url profile
    session_id upstream_proxy timeout headers kwargs log s :
  let self := CycleTLSClient.__init__ proxy dt max_retries in
  -5 < CycleTLSClient.timeout_or_default self timeout ->
  (forall n w, exists r, net n w = Responded r /\ status_code r = s) ->
  _is_method_retryable verb = false ->
  exists r, status_code r = s /\
    CycleTLSClient.request net self verb url profile session_id
      upstream_proxy timeout headers kwargs log
    = (CycleTLSClient._handle_response r,
       (log ++ [request_wire self verb url profile session_id
                  upstream_proxy timeout headers kwargs])%list).
Proof.
  intros self Ht Hnet Hm.
  destruct (Hnet (List.length log)
              (request_wire self verb url profile session_id
                 upstream_proxy timeout headers kwargs)) as (r & Hr & Hs).
  exists r. split; [done|].
  pose proof (request_unfold net self verb url profile session_id
                upstream_proxy timeout headers kwargs log) as H.
  cbv zeta in H. rewrite H. clear H.
  rewrite session_request_positive by (rewrite request_wire_timeout; lia).
  rewrite (urlopen_final net _ _ _ _ r Hr); [reflexivity|].
  subst self. rewrite is_retry_init.
  change (method (request_wire _ verb _ _ _ _ _ _ _)) with verb.
  by rewrite Hm.
Qed.

Lemma handle_response_502 r :
  status_code r = 502 ->
  CycleTLSClient._handle_response r
  = Raise (CycleTLSError ("Upstream request failed: " +:+ text r)).
Proof.
  intros H. unfold CycleTLSClient._handle_response, raise_for_status.
  by rewrite H.
Qed.

Lemma handle_response_503 r :
  status_code r = 503 ->
  CycleTLSClient._handle_response r
  = Raise (CycleTLSError ("HTTP 503: " +:+ text r)).
Proof.
  intros H. unfold CycleTLSClient._handle_response, raise_for_status.
  by rewrite H.
Qed.


End RequestFacts.

(** C5.  A positive declared timeout [t] reaches the transport as [t + 5]:
    every attempt of the synchronous client carries it, and at least one
    attempt is made; so does the one exchange of the asynchronous client,
    which is made when the client's session is open. *)
Theorem transport_timeout_is_declared_plus_5 (net : network)
    (self : CycleTLSClient.client) (aself : AsyncCycleTLSClient.client)
    (verb url : string) (profile : profile_arg)
    (session_id upstream_proxy : option string) (t : Z)
    (headers : option (gmap string string)) (kwargs : list (string * string))
    (log : list WireRequest) :
  0 < t ->
  (exists sent_now,
     snd (CycleTLSClient.request net self verb url profile session_id
            upstream_proxy (Some t) headers kwargs log)
     = (log ++ sent_now)%list
     /\ (1 <= List.length sent_now)%nat
     /\ Forall (fun w => transport_timeout w = t + 5) sent_now)
  /\ (exists sent_now,
        snd (AsyncCycleTLSClient.request net aself verb url profile session_id
               upstream_proxy (Some t) headers kwargs log)
        = (log ++ sent_now)%list
        /\ List.length sent_now
           = (if AsyncCycleTLSClient.session aself then 1 else 0)%nat
        /\ Forall (fun w => transport_timeout w = t + 5) sent_now).
Proof.
  intros Ht. split.
  - destruct (request_sends net self verb url profile session_id upstream_proxy
                (Some t) headers kwargs log) as (k & Hk & Hlog).
    + rewrite timeout_or_default_positive by done. lia.
    + eexists. split; [exact Hlog|]. split.
      * rewrite repeat_length. lia.
      * apply Forall_forall. intros w Hw. apply list_elem_of_In, repeat_spec in Hw as ->.
        rewrite request_wire_timeout, timeout_or_default_positive by done.
        reflexivity.
  - unfold AsyncCycleTLSClient.request.
    assert (AsyncCycleTLSClient.timeout_or_default aself (Some t) = t) as Et.
    { unfold AsyncCycleTLSClient.timeout_or_default, int_truthy.
      destruct (t =? 0) eqn:E; [lia | reflexivity]. }
    destruct (AsyncCycleTLSClient.session aself); cbn [negb].
    + unfold io_bind, attempt_send. eexists [_]. split; [|split].
      * by destruct (net _ _).
      * reflexivity.
      * constructor; [|constructor].
        cbn [transport_timeout ProxyConfig.timeout ProxyConfig.__init__].
        by rewrite Et.
    + exists []. split; [|split].
      * unfold io_ret. cbn [snd]. by rewrite app_nil_r.
      * reflexivity.
      * constructor.
Qed.

Lemma transport_timeout_is_declared_plus_5_witness :
  0 < 10
  /\ (exists sent_now,
        snd (CycleTLSClient.request ex_net_ok ex_client "GET"
               "https://httpbin.org/get" (ProfileEnum CHROME) None None
               (Some 10) None [] [])
        = sent_now
        /\ (1 <= List.length sent_now)%nat
        /\ Forall (fun w => transport_timeout w = 15) sent_now).
Proof.
  split; [lia|].
  apply (transport_timeout_is_declared_plus_5 ex_net_ok ex_client
           ex_async_client "GET" "https://httpbin.org/get" (ProfileEnum CHROME)
           None None 10 None [] []).
  lia.
Defined.




(** C3 (as amended).  [_handle_response] classifies a 502 as the
    upstream-request-failed error, and the client has no retry loop of its
    own.  The session's retry strategy, however, lists 502: when every
    answer is a 502, a request with a method that strategy retries (GET,
    HEAD, PUT, DELETE, OPTIONS, TRACE) is sent [1 + max_retries] times and
    ends in the transport's retry error, uncaught; a request with any other
    method is sent once and ends in the upstream-request-failed error. *)
Theorem status_502_fatal_in_client_retried_by_session (net : network)
    (proxy : string) (dt max_retries : Z) (verb url : string)
    (profile : profile_arg) (session_id upstream_proxy : option string)
    (timeout : option Z) (headers : option (gmap string string))
    (kwargs : list (string * string)) (log : list WireRequest) :
  let self := CycleTLSClient.__init__ proxy dt max_retries in
  let w := request_wire self verb url profile session_id upstream_proxy
             timeout headers kwargs in
  let out := CycleTLSClient.request net self verb url profile session_id
               upstream_proxy timeout headers kwargs log in
  -5 < CycleTLSClient.timeout_or_default self timeout ->
  (forall n w', exists r, net n w' = Responded r /\ status_code r = 502) ->
  (forall r, status_code r = 502 ->
     CycleTLSClient._handle_response r
     = Raise (CycleTLSError ("Upstream request failed: " +:+ text r)))
  /\ (_is_method_retryable verb = true ->
      out = (Raise (Uncaught (RetryError "too many 502 error responses")),
             (log ++ repeat w (S (Z.to_nat max_retries)))%list))
  /\ (_is_method_retryable verb = false ->
      exists r, status_code r = 502
        /\ out = (Raise (CycleTLSError
                           ("Upstream request failed: " +:+ text r)),
                  (log ++ [w])%list)).
Proof.
  intros self w out Ht Hnet. split; [|split].
  - apply handle_response_502.
  - intros Hm. subst out w self.
    rewrite (request_forced_status net proxy dt max_retries verb url profile
               session_id upstream_proxy timeout headers kwargs log 502
               Ht Hnet); [reflexivity | | exact Hm].
    rewrite !elem_of_cons. auto.
  - intros Hm.
    destruct (request_unforced_status net proxy dt max_retries verb url profile
                session_id upstream_proxy timeout headers kwargs log 502
                Ht Hnet Hm) as (r & Hr & Hout).
    exists r. split; [exact Hr|].
    subst out w self. rewrite Hout. by rewrite handle_response_502.
Qed.

Lemma always_status_responds s body n w :
  exists r, always_status s body n w = Responded r /\ status_code r = s.
Proof. by eexists. Qed.

Lemma status_502_fatal_in_client_retried_by_session_witness :
  -5 < CycleTLSClient.timeout_or_default ex_client None
  /\ (forall n w', exists r, ex_net_502 n w' = Responded r /\ status_code r = 502)
  /\ (_is_method_retryable "GET" = true ->
      List.length
        (snd (CycleTLSClient.request ex_net_502 ex_client "GET"
                "https://httpbin.org/get" (ProfileEnum CHROME)
                None None None None [] []))
      = 4%nat).
Proof.
  assert (-5 < CycleTLSClient.timeout_or_default ex_client None) as Ht
    by (vm_compute; reflexivity).
  split; [exact Ht|]. split; [apply always_status_responds|].
  intros Hm.
  destruct (status_502_fatal_in_client_retried_by_session ex_net_502
              "http://localhost:8080" 30 3 "GET" "https://httpbin.org/get"
              (ProfileEnum CHROME) None None None None [] [] Ht
              (always_status_responds 502 "bad gateway")) as (_ & Hget & _).
  fold ex_client in Hget. rewrite (Hget Hm). reflexivity.
Defined.

(** C3 as stated fails: with every answer a 502, a GET through the default
    client is attempted four times and the caller gets the transport's
    retry error, not the upstream-request-failed error. *)
Lemma status_502_get_is_retried :
  map target
    (snd (CycleTLSClient.request ex_net_502 ex_client "GET"
            "https://httpbin.org/get" (ProfileEnum CHROME)
            None None None None [] []))
  = ["http://localhost:8080"; "http://localhost:8080";
     "http://localhost:8080"; "http://localhost:8080"]
  /\ fst (CycleTLSClient.request ex_net_502 ex_client "GET"
            "https://httpbin.org/get" (ProfileEnum CHROME)
            None None None None [] [])
     = Raise (Uncaught (RetryError "too many 502 error responses")).
Proof. vm_compute. split; reflexivity. Qed.

(** C8 (as amended).  [max_retries] counts retries, not attempts.  When
    every answer is a 503, a request with a method the retry strategy
    retries is sent [1 + max_retries] times (four times for the default 3)
    and ends in the transport's retry error, uncaught by the client; a
    request with any other method is sent once and ends in the client's
    [HTTP 503] error. *)
Theorem status_503_attempts_one_plus_max_retries (net : network)
    (proxy : string) (dt max_retries : Z) (verb url : string)
    (profile : profile_arg) (session_id upstream_proxy : option string)
    (timeout : option Z) (headers : option (gmap string string))
    (kwargs : list (string * string)) (log : list WireRequest) :
  let self := CycleTLSClient.__init__ proxy dt max_retries in
  let w := request_wire self verb url profile session_id upstream_proxy
             timeout headers kwargs in
  let out := CycleTLSClient.request net self verb url profile session_id
               upstream_proxy timeout headers kwargs log in
  -5 < CycleTLSClient.timeout_or_default self timeout ->
  (forall n w', exists r, net n w' = Responded r /\ status_code r = 503) ->
  (_is_method_retryable verb = true ->
   out = (Raise (Uncaught (RetryError "too many 503 error responses")),
          (log ++ repeat w (S (Z.to_nat max_retries)))%list))
  /\ (_is_method_retryable verb = false ->
      exists r, status_code r = 503
        /\ out = (Raise (CycleTLSError ("HTTP 503: " +:+ text r)),
                  (log ++ [w])%list)).
Proof.
  intros self w out Ht Hnet. split.
  - intros Hm. subst out w self.
    rewrite (request_forced_status net proxy dt max_retries verb url profile
               session_id upstream_proxy timeout headers kwargs log 503
               Ht Hnet); [reflexivity | | exact Hm].
    rewrite !elem_of_cons. auto.
  - intros Hm.
    destruct (request_unforced_status net proxy dt max_retries verb url profile
                session_id upstream_proxy timeout headers kwargs log 503
                Ht Hnet Hm) as (r & Hr & Hout).
    exists r. split; [exact Hr|].
    subst out w self. rewrite Hout. by rewrite handle_response_503.
Qed.

Lemma status_503_attempts_one_plus_max_retries_witness :
  -5 < CycleTLSClient.timeout_or_default ex_client None
  /\ (forall n w', exists r, ex_net_503 n w' = Responded r /\ status_code r = 503)
  /\ (_is_method_retryable "GET" = true ->
      List.length
        (snd (CycleTLSClient.request ex_net_503 ex_client "GET"
                "https://httpbin.org/get" (ProfileEnum CHROME)
                None None None None [] []))
      = 4%nat).
Proof.
  assert (-5 < CycleTLSClient.timeout_or_default ex_client None) as Ht
    by (vm_compute; reflexivity).
  split; [exact Ht|]. split; [apply always_status_responds|].
  intros Hm.
  destruct (status_503_attempts_one_plus_max_retries ex_net_503
              "http://localhost:8080" 30 3 "GET" "https://httpbin.org/get"
              (ProfileEnum CHROME) None None None None [] [] Ht
              (always_status_responds 503 "busy")) as (Hget & _).
  fold ex_client in Hget. rewrite (Hget Hm). reflexivity.
Defined.

(** C8 as stated fails: with [max_retries = 3] and every answer a 503, a GET
    is attempted four times and a POST once; neither makes exactly three
    attempts, and the GET ends in an error the client does not wrap. *)
Lemma status_503_attempts_not_three :
  CycleTLSClient.total_retries ex_client = 3
  /\ List.length
       (snd (CycleTLSClient.request ex_net_503 ex_client "GET"
               "https://httpbin.org/get" (ProfileEnum CHROME)
               None None None None [] []))
     = 4%nat
  /\ fst (CycleTLSClient.request ex_net_503 ex_client "GET"
            "https://httpbin.org/get" (ProfileEnum CHROME)
            None None None None [] [])
     = Raise (Uncaught (RetryError "too many 503 error responses"))
  /\ List.length
       (snd (CycleTLSClient.post ex_net_503 ex_client
               "https://httpbin.org/post" (ProfileEnum CHROME)
               None None None None [] []))
     = 1%nat
  /\ fst (CycleTLSClient.post ex_net_503 ex_client
            "https://httpbin.org/post" (ProfileEnum CHROME)
            None None None None [] [])
     = Raise (CycleTLSError "HTTP 503: busy").
Proof. vm_compute. repeat split; reflexivity. Qed.

(** ** The health check *)

Lemma health_check_unfold (net : network) (json : Type)
    (json_loads : string -> json + string) self log :
  CycleTLSClient.health_check net json json_loads self log =
  let '(r, log') :=
    urlopen net (Z.to_nat (CycleTLSClient.total_retries self))
      (CycleTLSClient.retry_strategy self) (health_wire self) log in
  (match r with
   | Got response =>
       match raise_for_status response with
       | Some e => Raise (CycleTLSError ("Health check failed: " +:+ e))
       | None =>
           match json_loads (text response) with
           | inl j => Return j
           | inr e => Raise (CycleTLSError ("Health check failed: " +:+ e))
           end
       end
   | Failed e =>
       Raise (CycleTLSError ("Health check failed: " +:+ requests_exn_str e))
   end, log').
Proof.
  unfold CycleTLSClient.health_check, io_bind.
  change (session_request net (CycleTLSClient.retry_strategy self) _ log)
    with (urlopen net (Z.to_nat (CycleTLSClient.total_retries self))
            (CycleTLSClient.retry_strategy self) (health_wire self) log).
  destruct (urlopen _ _ _ _ _) as [[response|e] log']; [|reflexivity].
  destruct (raise_for_status response); [reflexivity|].
  by destruct (json_loads (text response)).
Qed.

Lemma raise_for_status_error r :
  400 <= status_code r < 600 -> exists e, raise_for_status r = Some e.
Proof.
  intros H. unfold raise_for_status.
  destruct ((400 <=? status_code r) && (status_code r <? 500)) eqn:E4;
    [by eexists|].
  destruct ((500 <=? status_code r) && (status_code r <? 600)) eqn:E5;
    [by eexists|].
  apply andb_false_iff in E4, E5. lia.
Qed.

Lemma raise_for_status_below_400 r :
  status_code r < 400 -> raise_for_status r = None.
Proof.
  intros H. unfold raise_for_status.
  destruct (400 <=? status_code r) eqn:E4; [lia|].
  destruct (500 <=? status_code r) eqn:E5; [lia|]. reflexivity.
Qed.

(** C4 (as amended).  [health_check] makes one [session.get] call for
    [<proxy_url>/health] with timeout 5 and has no retry loop of its own;
    whatever it raises is the health-check error.  The call goes through
    the session's retry strategy: when the first answer is a 4xx/5xx
    outside the force list (413 apart, which the transport may retry on a
    [Retry-After]), it is the only attempt; when every answer has a
    force-listed status, or the proxy cannot be reached, the call is
    attempted [1 + max_retries] times before the error surfaces.  A first
    answer with a 2xx status and a body that parses is returned. *)
Theorem health_check_single_call_with_session_retries (net : network)
    (json : Type) (json_loads : string -> json + string)
    (proxy : string) (dt max_retries : Z) (log : list WireRequest) :
  let self := CycleTLSClient.__init__ proxy dt max_retries in
  let w := health_wire self in
  let out := CycleTLSClient.health_check net json json_loads self log in
  (method w = "GET"
   /\ target w = rstrip_slash proxy +:+ "/health"
   /\ transport_timeout w = 5)
  /\ (forall e, fst out = Raise e ->
                exists m, e = CycleTLSError ("Health check failed: " +:+ m))
  /\ (forall r,
        net (List.length log) w = Responded r ->
        status_code r ∉ [429; 500; 502; 503; 504] ->
        status_code r <> 413 ->
        400 <= status_code r < 600 ->
        snd out = (log ++ [w])%list
        /\ exists m,
             fst out = Raise (CycleTLSError ("Health check failed: " +:+ m)))
  /\ (forall s,
        s ∈ [429; 500; 502; 503; 504] ->
        (forall n w', exists r, net n w' = Responded r /\ status_code r = s) ->
        snd out = (log ++ repeat w (S (Z.to_nat max_retries)))%list
        /\ exists m,
             fst out = Raise (CycleTLSError ("Health check failed: " +:+ m)))
  /\ (forall msg,
        (forall n w', net n w' = ConnectFailed msg) ->
        snd out = (log ++ repeat w (S (Z.to_nat max_retries)))%list
        /\ exists m,
             fst out = Raise (CycleTLSError ("Health check failed: " +:+ m)))
  /\ (forall r j,
        net (List.length log) w = Responded r ->
        200 <= status_code r < 300 ->
        json_loads (text r) = inl j ->
        out = (Return j, (log ++ [w])%list)).
Proof.
  intros self w out.
  assert (out = CycleTLSClient.health_check net json json_loads self log)
    as Hout by reflexivity.
  rewrite health_check_unfold in Hout.
  change (CycleTLSClient.total_retries self) with max_retries in Hout.
  fold w in Hout.
  split; [done|]. split; [|split; [|split; [|split]]].
  - intros e. rewrite Hout.
    destruct (urlopen _ _ _ _ _) as [[response|e'] log']; cbn [fst].
    + destruct (raise_for_status response);
        [intros [= <-]; by eexists|].
      destruct (json_loads (text response)); [discriminate|].
      intros [= <-]; by eexists.
    + intros [= <-]; by eexists.
  - intros r Hnet Hs _ Hrange. rewrite Hout.
    rewrite (urlopen_final net _ _ _ _ r Hnet).
    + destruct (raise_for_status_error r Hrange) as [e ->].
      split; [reflexivity | by eexists].
    + subst self. rewrite is_retry_init.
      rewrite (bool_decide_eq_false_2 _ Hs). apply andb_false_r.
  - intros s Hs Hnet. rewrite Hout.
    rewrite (urlopen_forced net _ _ _ _ s Hnet).
    + split; [reflexivity | by eexists].
    + subst self. rewrite is_retry_init.
      by rewrite (bool_decide_eq_true_2 _ Hs).
  - intros msg Hnet. rewrite Hout.
    rewrite (urlopen_unreachable net _ _ _ _ msg Hnet).
    split; [reflexivity | by eexists].
  - intros r j Hnet Hs Hj. rewrite Hout.
    rewrite (urlopen_final net _ _ _ _ r Hnet).
    + rewrite (raise_for_status_below_400 r) by lia. by rewrite Hj.
    + subst self. rewrite is_retry_init.
      rewrite bool_decide_eq_false_2; [apply andb_false_r|].
      rewrite !elem_of_cons, elem_of_nil. lia.
Qed.

Lemma health_check_single_call_with_session_retries_witness :
  (503 ∈ [429; 500; 502; 503; 504])
  /\ (forall n w', exists r, ex_net_503 n w' = Responded r /\ status_code r = 503)
  /\ snd (CycleTLSClient.health_check ex_net_503 string ex_json_loads
            ex_client [])
     = repeat (health_wire ex_client) 4.
Proof.
  assert (503 ∈ [429; 500; 502; 503; 504]) as Hs
    by (rewrite !elem_of_cons; auto).
  split; [exact Hs|]. split; [apply always_status_responds|].
  destruct (health_check_single_call_with_session_retries ex_net_503 string
              ex_json_loads "http://localhost:8080" 30 3 [])
    as (_ & _ & _ & Hforced & _).
  exact (proj1 (Hforced 503 Hs (always_status_responds 503 "busy"))).
Defined.

(** C4 as stated fails: with every answer a 503 the health check is
    attempted four times before its error surfaces, and so it is when the
    proxy cannot be reached. *)
Lemma health_check_is_retried :
  map target
    (snd (CycleTLSClient.health_check ex_net_503 string ex_json_loads
            ex_client []))
  = ["http://localhost:8080/health"; "http://localhost:8080/health";
     "http://localhost:8080/health"; "http://localhost:8080/health"]
  /\ List.length
       (snd (CycleTLSClient.health_check (unreachable "Connection refused")
               string ex_json_loads ex_client []))
     = 4%nat.
Proof. vm_compute. split; reflexivity. Qed.

(** ** Concurrent dispatch *)

Section SortedOutcomes.
Variable got : nat -> result Response.

Let outcome (i : nat) : tuple3 := make_request_outcome (Z.of_nat i) (got i).

(** What a pool worker returns is [make_request_outcome] of what
    [client.get] gave it. *)
Lemma make_request_returns_outcome (net : network)
    (client : CycleTLSClient.client) (request_id : Z) (log : list WireRequest) :
  fst (make_request net client request_id log)
  = make_request_outcome request_id
      (fst (CycleTLSClient.get net client
              ("https://httpbin.org/get?request_id=" +:+ str_of_int request_id)
              (ProfileEnum CHROME)
              (Some ("concurrent-" +:+ str_of_int request_id))
              None None None [] log)).
Proof.
  unfold make_request, io_bind. by destruct (CycleTLSClient.get _ _ _ _ _ _ _ _ _ _).
Qed.

(** Tuples of different requests compare by their request ids alone. *)
Lemma tuple_lt_outcome (i j : Z) (ri rj : result Response) :
  i <> j ->
  tuple_lt (make_request_outcome i ri) (make_request_outcome j rj)
  = Some (i <? j).
Proof.
  intros Hij. assert ((i =? j) = false) as E by lia.
  destruct ri, rj; unfold make_request_outcome, tuple_lt;
    cbn [pyval_eqb pyval_lt]; by rewrite E.
Qed.

Lemma insert_sorted_outcomes (x : nat) (l : list nat) :
  (x ∉ l) -> StronglySorted lt l ->
  exists l', insert_sorted (outcome x) (map outcome l) = Some (map outcome l')
             /\ (x :: l ≡ₚ l')
             /\ StronglySorted lt l'.
Proof.
  induction l as [|y l IH]; intros Hx Hl.
  - exists [x]. repeat split; [done | repeat constructor].
  - apply not_elem_of_cons in Hx as [Hxy Hx].
    apply StronglySorted_inv in Hl as [Hl Hy].
    cbn [map insert_sorted]. unfold outcome at 1 2.
    rewrite tuple_lt_outcome by lia.
    destruct (Z.of_nat y <? Z.of_nat x) eqn:E.
    + destruct (IH Hx Hl) as (l' & -> & Hperm & Hsorted).
      exists (y :: l'). split; [reflexivity|]. split.
      * rewrite <- Hperm. apply perm_swap.
      * constructor; [exact Hsorted|].
        rewrite <- Hperm. constructor; [lia | exact Hy].
    + exists (x :: y :: l). split; [reflexivity|]. split; [done|].
      constructor; [by constructor|].
      constructor; [lia|].
      eapply Forall_impl; [exact Hy|]. intros z Hz. simpl in Hz. lia.
Qed.

Lemma sorted_outcomes (l : list nat) :
  NoDup l ->
  exists l', sorted (map outcome l) = Some (map outcome l')
             /\ (l ≡ₚ l')
             /\ StronglySorted lt l'.
Proof.
  induction l as [|x l IH]; intros Hl.
  - exists []. repeat split; [done | constructor].
  - apply NoDup_cons in Hl as [Hx Hl].
    destruct (IH Hl) as (l' & Hs & Hperm & Hsorted).
    cbn [map sorted]. rewrite Hs.
    destruct (insert_sorted_outcomes x l') as (l'' & Hins & Hperm' & Hsorted').
    + by rewrite <- Hperm.
    + exact Hsorted.
    + exists l''. split; [exact Hins|]. split; [|exact Hsorted'].
      by rewrite Hperm.
Qed.

Lemma StronglySorted_lt_seq (start len : nat) :
  StronglySorted lt (seq start len).
Proof.
  revert start. induction len as [|len IH]; intros start; cbn [seq].
  - constructor.
  - constructor; [apply IH|].
    apply Forall_forall. intros z Hz. apply elem_of_seq in Hz. lia.
Qed.

(** Whatever the completion order, sorting puts the tuples back in the
    order of the request ids. *)
Lemma sorted_collect_results (n : nat) (completion : list nat) :
  (completion ≡ₚ seq 0 n) ->
  sorted (collect_results got completion) = Some (map outcome (seq 0 n)).
Proof.
  intros Hperm.
  destruct (sorted_outcomes completion) as (l' & Hs & Hperm' & Hsorted).
  - rewrite Hperm. apply NoDup_seq.
  - unfold collect_results. fold outcome. rewrite Hs. do 2 f_equal.
    apply (StronglySorted_unique_strong lt); [lia | exact Hsorted | |].
    + apply StronglySorted_lt_seq.
    + by rewrite <- Hperm', Hperm.
Qed.
End SortedOutcomes.

Section Gather.
Context {A : Type}.
Implicit Types (children : list (result A)) (completion : list nat).

Lemma collect_all_returned (vals : list A) :
  fold_right
    (fun (c : result A) (acc : result (list A)) =>
       match c, acc with
       | Return a, Return l => Return (a :: l)
       | Raise e, _ => Raise e
       | _, Raise e => Raise e
       end) (Return []) (map Return vals)
  = Return vals.
Proof. induction vals as [|v vals IH]; cbn [map fold_right]; by rewrite ?IH. Qed.

(** All children return: the loop counts up to their number and hands
    back their values in the children's own order. *)
Lemma gather_loop_all_returned (vals : list A) completion (nfinished : nat) :
  Forall (fun i => (i < List.length vals)%nat) completion ->
  completion <> [] ->
  (nfinished + List.length completion = List.length vals)%nat ->
  gather_loop (map Return vals) completion nfinished = Some (Return vals).
Proof.
  revert nfinished.
  induction completion as [|i rest IH]; intros nfinished Hi Hne Hlen;
    [done|].
  apply Forall_cons in Hi as [Hi Hrest]. cbn [gather_loop].
  destruct (lookup_lt_is_Some_2 vals i Hi) as [v Hv].
  rewrite list_lookup_fmap, Hv. cbn [fmap option_fmap option_map].
  rewrite length_map.
  destruct (S nfinished =? List.length vals)%nat eqn:E.
  - apply f_equal, collect_all_returned.
  - apply Nat.eqb_neq in E. apply IH; [exact Hrest | | simpl in Hlen; lia].
    intros ->. simpl in Hlen. lia.
Qed.

(** A child raises after children that returned: its exception is what the
    awaiting task gets, wherever the others stand. *)
Lemma gather_loop_first_raise children (pre : list nat) (i : nat)
    (post : list nat) (nfinished : nat) (e : exn) :
  Forall (fun j => exists a, children !! j = Some (Return a)) pre ->
  children !! i = Some (Raise e) ->
  (nfinished + List.length pre < List.length children)%nat ->
  gather_loop children (pre ++ i :: post)%list nfinished = Some (Raise e).
Proof.
  revert nfinished.
  induction pre as [|j pre IH]; intros nfinished Hpre Hi Hlen.
  - cbn [app gather_loop]. by rewrite Hi.
  - apply Forall_cons in Hpre as [[a Ha] Hpre].
    change ((j :: pre) ++ i :: post)%list with (j :: (pre ++ i :: post))%list.
    cbn [gather_loop]. rewrite Ha.
    destruct (S nfinished =? List.length children)%nat eqn:E.
    + apply Nat.eqb_eq in E. simpl in Hlen. lia.
    + apply IH; [exact Hpre | exact Hi | simpl in Hlen; lia].
Qed.
End Gather.

(** C7 (as amended).  Thread pool: whatever the completion order, the
    sequence the report runs over ([sorted(results)]) is the sequence of
    outcomes, errors included, in input order.  Event loop: when every
    request ends with a response, [gather] hands the responses back in
    input order whatever the completion order; when a request raises,
    no sequence comes back: the exception of the request that is first to
    fail in completion order is raised instead. *)
Theorem concurrent_results_in_input_order
    (got : nat -> result Response) (completion : list nat) :
  ((completion ≡ₚ seq 0 10) ->
   snd (run_concurrent_examples got completion)
   = Some (map (fun i => make_request_outcome (Z.of_nat i) (got i))
             (seq 0 10)))
  /\ ((completion ≡ₚ seq 0 5) ->
      forall resp : nat -> Response,
        (forall i, (i < 5)%nat -> got i = Return (resp i)) ->
        run_async_batch got completion
        = Some (Return (map (fun i => (i, resp i)) (seq 0 5))))
  /\ ((completion ≡ₚ seq 0 5) ->
      forall (pre : list nat) (i : nat) (post : list nat) (e : exn),
        completion = (pre ++ i :: post)%list ->
        (forall j, j ∈ pre -> exists r, got j = Return r) ->
        got i = Raise e ->
        run_async_batch got completion = Some (Raise e)).
Proof.
  split; [|split].
  - intros Hperm. unfold run_concurrent_examples. cbn [snd].
    apply sorted_collect_results, Hperm.
  - intros Hperm resp Hresp. unfold run_async_batch.
    assert (map got (seq 0 5) = map Return (map resp (seq 0 5))) as ->.
    { rewrite map_map. apply map_ext_in. intros i Hi.
      apply in_seq in Hi. apply Hresp. lia. }
    cbn [seq map gather].
    rewrite (gather_loop_all_returned
               [resp 0%nat; resp 1%nat; resp 2%nat; resp 3%nat; resp 4%nat]).
    + reflexivity.
    + apply Forall_forall. intros i Hi. rewrite Hperm in Hi.
      apply elem_of_seq in Hi. simpl. lia.
    + intros ->. by apply Permutation_nil_l in Hperm.
    + rewrite (Permutation_length Hperm). reflexivity.
  - intros Hperm pre i post e Hsplit Hpre Hi. unfold run_async_batch.
    assert (forall j, j ∈ completion -> map got (seq 0 5) !! j = Some (got j))
      as Hlookup.
    { intros j Hj. rewrite Hperm in Hj. apply elem_of_seq in Hj.
      rewrite list_lookup_fmap, lookup_seq_lt by lia. reflexivity. }
    assert (gather (map got (seq 0 5)) completion = Some (Raise e)) as ->;
      [|reflexivity].
    change (gather (map got (seq 0 5)) completion)
      with (gather_loop (map got (seq 0 5)) completion 0).
    rewrite Hsplit. apply gather_loop_first_raise.
    + apply Forall_forall. intros j Hj.
      destruct (Hpre j Hj) as [r Hr]. exists r.
      rewrite Hlookup, Hr; [reflexivity|].
      rewrite Hsplit. apply elem_of_app. by left.
    + rewrite Hlookup, Hi; [reflexivity|].
      rewrite Hsplit. apply elem_of_app. right. by left.
    + apply Permutation_length in Hperm. rewrite Hsplit in Hperm.
      rewrite length_app in Hperm. simpl in *. lia.
Qed.

Lemma concurrent_results_in_input_order_witness :
  ([7; 2; 9; 0; 4; 1; 8; 3; 6; 5]%nat ≡ₚ seq 0 10)
  /\ snd (run_concurrent_examples ex_pool_got [7; 2; 9; 0; 4; 1; 8; 3; 6; 5]%nat)
     = Some (map (fun i => make_request_outcome (Z.of_nat i) (ex_pool_got i))
               (seq 0 10)).
Proof.
  assert ([7; 2; 9; 0; 4; 1; 8; 3; 6; 5]%nat ≡ₚ seq 0 10) as Hperm.
  { apply NoDup_Permutation; [| apply NoDup_seq |].
    - repeat (constructor;
              [rewrite ?elem_of_cons, ?elem_of_nil; lia|]).
      constructor.
    - intros x. rewrite elem_of_seq, !elem_of_cons, elem_of_nil. lia. }
  split; [exact Hperm|].
  exact (proj1 (concurrent_results_in_input_order ex_pool_got _) Hperm).
Defined.

(** C7 as stated fails in the event-loop model: with two failing requests
    the result of the batch is no sequence of outcomes, and which exception
    comes out depends on the completion order. *)
Lemma async_batch_depends_on_completion_order :
  run_async_batch ex_async_got [0; 1; 2; 3; 4]%nat
  = Some (Raise (CycleTLSError "Request error: second"))
  /\ run_async_batch ex_async_got [3; 1; 0; 2; 4]%nat
     = Some (Raise (CycleTLSTimeoutError "Request timed out after 30s"))
  /\ run_async_batch ex_async_got [0; 1; 2; 3; 4]%nat
     <> run_async_batch ex_async_got [3; 1; 0; 2; 4]%nat.
Proof. vm_compute. repeat split; congruence. Qed.


(** * Further properties of the client *)

(** ** Profiles and configuration *)

(** X1.  The nine profile identifiers are pairwise different; a config
    built from an enum member carries that member's identifier, which is
    one of the nine, and a config built from a string carries the string
    as it is, whether it names a profile or not. *)
Theorem post_init_profile_identifier (url : string)
    (session_id upstream_proxy : option string) (timeout : Z) :
  (forall p q : BrowserProfile,
     BrowserProfile_value p = BrowserProfile_value q -> p = q)
  /\ NoDup BrowserProfile_values
  /\ (forall p : BrowserProfile,
        ProxyConfig.profile
          (ProxyConfig.__init__ url (ProfileEnum p) session_id upstream_proxy
             timeout) = BrowserProfile_value p
        /\ BrowserProfile_value p ∈ BrowserProfile_values)
  /\ (forall s : string,
        ProxyConfig.profile
          (ProxyConfig.__init__ url (ProfileStr s) session_id upstream_proxy
             timeout) = s).
Proof.
  split; [|split; [|split]].
  - intros p q H. destruct p, q; try reflexivity; discriminate H.
  - unfold BrowserProfile_values. cbn [map BrowserProfile_value].
    repeat (constructor;
            [rewrite ?elem_of_cons, ?elem_of_nil; intros H;
             repeat (destruct H as [H|H]; [discriminate H|]); exact H|]).
    constructor.
  - intros p. split; [reflexivity|].
    unfold BrowserProfile_values. cbn [map BrowserProfile_value].
    rewrite !elem_of_cons. destruct p; auto 10.
  - reflexivity.
Qed.

Lemma rstrip_slash_cons c rest :
  rstrip_slash (String c rest) =
  match rstrip_slash rest with
  | EmptyString => if Ascii.eqb c "/" then EmptyString else String c EmptyString
  | rest' => String c rest'
  end.
Proof. reflexivity. Qed.

Lemma rstrip_slash_decompose s :
  exists k, s = rstrip_slash s +:+ str_repeat "/" k.
Proof.
  induction s as [|c rest [k IH]]; [by exists 0%nat|].
  rewrite rstrip_slash_cons.
  destruct (rstrip_slash rest) as [|c' r'] eqn:E.
  - change (rest = str_repeat "/" k) in IH.
    destruct (Ascii.eqb_spec c "/") as [->|Hc].
    + exists (S k). by rewrite IH.
    + exists k. by rewrite IH at 1.
  - exists k. by rewrite IH at 1.
Qed.

Lemma rstrip_slash_no_trailing s a : rstrip_slash s <> a +:+ "/".
Proof.
  revert a. induction s as [|c rest IH]; intros a.
  - by destruct a.
  - rewrite rstrip_slash_cons.
    destruct (rstrip_slash rest) as [|c' r'] eqn:E.
    + destruct (Ascii.eqb_spec c "/") as [->|Hc].
      * by destruct a.
      * destruct a as [|c1 [|c2 a]]; [| discriminate | discriminate].
        intros [= ->]. by apply Hc.
    + destruct a as [|c1 a]; [discriminate|].
      change (String c1 a +:+ "/") with (String c1 (a +:+ "/")).
      intros [= -> H]. by apply (IH a).
Qed.

Lemma rstrip_slash_idempotent s :
  rstrip_slash (rstrip_slash s) = rstrip_slash s.
Proof.
  induction s as [|c rest IH]; [reflexivity|].
  rewrite rstrip_slash_cons.
  destruct (rstrip_slash rest) as [|c' r'] eqn:E.
  - destruct (Ascii.eqb_spec c "/") as [->|Hc]; [reflexivity|].
    rewrite rstrip_slash_cons. cbn [rstrip_slash].
    by destruct (Ascii.eqb_spec c "/").
  - rewrite rstrip_slash_cons, IH. reflexivity.
Qed.

Lemma str_app_cons c (a b : string) :
  String c a +:+ b = String c (a +:+ b).
Proof. reflexivity. Qed.

Lemma str_app_assoc (a b c : string) : (a +:+ b) +:+ c = a +:+ (b +:+ c).
Proof.
  induction a as [|x a IH]; [reflexivity|].
  by rewrite !str_app_cons, IH.
Qed.

Lemma str_app_length (a b : string) :
  String.length (a +:+ b) = (String.length a + String.length b)%nat.
Proof.
  induction a as [|x a IH]; [reflexivity|].
  rewrite str_app_cons. cbn [String.length]. by rewrite IH.
Qed.

Lemma str_app_nil_r (a : string) : a +:+ "" = a.
Proof.
  induction a as [|x a IH]; [reflexivity|]. by rewrite str_app_cons, IH.
Qed.

(** Appending the same tail to two strings keeps them apart. *)
Lemma str_app_inv_tail (u v t : string) : u +:+ t = v +:+ t -> u = v.
Proof.
  revert v. induction u as [|c u IH]; intros [|c' v] H.
  - reflexivity.
  - change (t = String c' (v +:+ t)) in H.
    apply (f_equal String.length) in H. cbn [String.length] in H.
    rewrite str_app_length in H. lia.
  - change (String c (u +:+ t) = t) in H.
    apply (f_equal String.length) in H. cbn [String.length] in H.
    rewrite str_app_length in H. lia.
  - rewrite !str_app_cons in H. injection H as -> H. f_equal. by apply IH.
Qed.

(** X2.  [__init__] stores the proxy URL without its trailing slashes and
    changes nothing else: the argument is the stored URL followed by
    slashes only, the stored URL does not end with a slash, and a URL that
    was stored is stored unchanged.  The URL of the health check therefore
    never ends with [//health]. *)
Theorem init_strips_trailing_slashes (proxy : string) (dt max_retries : Z) :
  let self := CycleTLSClient.__init__ proxy dt max_retries in
  (exists k, proxy = CycleTLSClient.proxy_url self +:+ str_repeat "/" k)
  /\ (forall a, CycleTLSClient.proxy_url self <> a +:+ "/")
  /\ CycleTLSClient.proxy_url
       (CycleTLSClient.__init__ (CycleTLSClient.proxy_url self) dt max_retries)
     = CycleTLSClient.proxy_url self
  /\ (forall a, target (health_wire self) <> a +:+ "//health").
Proof.
  cbv zeta. cbn [CycleTLSClient.proxy_url CycleTLSClient.__init__].
  split; [apply rstrip_slash_decompose|].
  split; [apply rstrip_slash_no_trailing|].
  split; [apply rstrip_slash_idempotent|].
  intros a H. unfold health_wire in H.
  cbn [target CycleTLSClient.proxy_url CycleTLSClient.__init__] in H.
  apply (rstrip_slash_no_trailing proxy a).
  apply (str_app_inv_tail _ _ "/health").
  by rewrite str_app_assoc.
Qed.

(** ** More on header assembly *)

Ltac headers_lookup :=
  unfold make_headers_body;
  repeat match goal with
         | |- context [match ?o with Some _ => _ | None => _ end] =>
             destruct o
         | |- context [if ?b then _ else _] => destruct b eqn:?
         end;
  simplify_map_eq; try done.

Lemma lookup_base_proxy dt config :
  make_headers_body dt config None !! "X-PROXY" =
  match ProxyConfig.upstream_proxy config with
  | Some p => if str_truthy p then Some p else None
  | None => None
  end.
Proof. headers_lookup. Qed.

Lemma lookup_base_other dt config k :
  k ∉ ["X-URL"; "X-IDENTIFIER"; "X-SESSION-ID"; "X-PROXY"; "X-TIMEOUT"] ->
  make_headers_body dt config None !! k = None.
Proof.
  rewrite !not_elem_of_cons. intros (? & ? & ? & ? & ? & _). headers_lookup.
Qed.

Lemma make_headers_empty_extra dt config :
  make_headers_body dt config (Some ∅) = make_headers_body dt config None.
Proof. reflexivity. Qed.

(** X3.  Both clients forward every extra header of the caller with the
    caller's value, add nothing beyond the five headers of their own, and
    treat an empty dict of extra headers like none. *)
Theorem make_headers_forwards_extra_headers
    (self : CycleTLSClient.client) (aself : AsyncCycleTLSClient.client)
    (config : ProxyConfig.t) (extra_headers : option (gmap string string))
    (k : string) :
  let own := ["X-URL"; "X-IDENTIFIER"; "X-SESSION-ID"; "X-PROXY"; "X-TIMEOUT"] in
  let h := CycleTLSClient._make_headers self config extra_headers in
  let ah := AsyncCycleTLSClient._make_headers aself config extra_headers in
  (forall v, opt_lookup k extra_headers = Some v ->
             h !! k = Some v /\ ah !! k = Some v)
  /\ (is_Some (h !! k) -> is_Some (opt_lookup k extra_headers) \/ k ∈ own)
  /\ (is_Some (ah !! k) -> is_Some (opt_lookup k extra_headers) \/ k ∈ own)
  /\ CycleTLSClient._make_headers self config (Some ∅)
     = CycleTLSClient._make_headers self config None
  /\ AsyncCycleTLSClient._make_headers aself config (Some ∅)
     = AsyncCycleTLSClient._make_headers aself config None.
Proof.
  cbv zeta.
  unfold CycleTLSClient._make_headers, AsyncCycleTLSClient._make_headers.
  rewrite !(lookup_make_headers _ _ extra_headers).
  split; [|split; [|split; [|split]]].
  - intros v ->. by split.
  - destruct (opt_lookup k extra_headers); [by left; eexists|].
    intros Hk. right.
    destruct (decide (k ∈ ["X-URL"; "X-IDENTIFIER"; "X-SESSION-ID";
                           "X-PROXY"; "X-TIMEOUT"])) as [Hin|Hout];
      [exact Hin|].
    rewrite (lookup_base_other _ _ _ Hout) in Hk. by destruct Hk.
  - destruct (opt_lookup k extra_headers); [by left; eexists|].
    intros Hk. right.
    destruct (decide (k ∈ ["X-URL"; "X-IDENTIFIER"; "X-SESSION-ID";
                           "X-PROXY"; "X-TIMEOUT"])) as [Hin|Hout];
      [exact Hin|].
    rewrite (lookup_base_other _ _ _ Hout) in Hk. by destruct Hk.
  - apply make_headers_empty_extra.
  - apply make_headers_empty_extra.
Qed.

(** X4.  [X-PROXY] is read from the caller's extra headers when they
    contain it; otherwise it is present exactly when the config's upstream
    proxy is a non-empty string, with that string as its value. *)
Theorem make_headers_proxy_header
    (self : CycleTLSClient.client) (aself : AsyncCycleTLSClient.client)
    (config : ProxyConfig.t) (extra_headers : option (gmap string string)) :
  let expected :=
    match opt_lookup "X-PROXY" extra_headers with
    | Some v => Some v
    | None =>
        match ProxyConfig.upstream_proxy config with
        | Some p => if str_truthy p then Some p else None
        | None => None
        end
    end in
  CycleTLSClient._make_headers self config extra_headers !! "X-PROXY"
    = expected
  /\ AsyncCycleTLSClient._make_headers aself config extra_headers !! "X-PROXY"
     = expected.
Proof.
  cbv zeta.
  unfold CycleTLSClient._make_headers, AsyncCycleTLSClient._make_headers.
  by rewrite !(lookup_make_headers _ _ extra_headers), !lookup_base_proxy.
Qed.

(** ** More on response classification *)

Lemma raise_for_status_none_iff r :
  raise_for_status r = None <-> status_code r < 400 \/ 600 <= status_code r.
Proof.
  unfold raise_for_status.
  destruct ((400 <=? status_code r) && (status_code r <? 500)) eqn:E4.
  { apply andb_true_iff in E4. split; [discriminate | lia]. }
  destruct ((500 <=? status_code r) && (status_code r <? 600)) eqn:E5.
  { apply andb_true_iff in E5. split; [discriminate | lia]. }
  apply andb_false_iff in E4, E5. split; [lia | reflexivity].
Qed.

(** X5.  [_handle_response] hands a response back exactly when its status
    is outside 400..599, and then it is the response it was given,
    unchanged: informational and redirect statuses pass like a 200. *)
Theorem handle_response_returns_iff_not_4xx_5xx (response response' : Response) :
  CycleTLSClient._handle_response response = Return response'
  <-> response' = response
      /\ (status_code response < 400 \/ 600 <= status_code response).
Proof.
  rewrite <- raise_for_status_none_iff.
  unfold CycleTLSClient._handle_response.
  destruct (raise_for_status response) as [e|].
  - split; [|by intros [_ ?]].
    repeat match goal with
           | |- context [if ?b then _ else _] => destruct b
           end; discriminate.
  - split; [by intros [= ->] | by intros [-> _]].
Qed.

(** X6.  Every status in 400..599 raises one of the client's three errors,
    and the message ends with the response body.  A 400 without either
    marker is a bad request; a status other than 400 and 502 is reported
    with its number. *)
Theorem handle_response_error_branches (response : Response) :
  400 <= status_code response < 600 ->
  (exists prefix,
     let m := prefix +:+ text response in
     CycleTLSClient._handle_response response = Raise (CycleTLSError m)
     \/ CycleTLSClient._handle_response response = Raise (CycleTLSTimeoutError m)
     \/ CycleTLSClient._handle_response response
        = Raise (CycleTLSInvalidProfileError m))
  /\ (status_code response = 400 ->
      str_contains "Invalid identifier" (text response) = false ->
      str_contains "timeout" (str_lower (text response)) = false ->
      CycleTLSClient._handle_response response
      = Raise (CycleTLSError ("Bad request: " +:+ text response)))
  /\ (status_code response <> 400 -> status_code response <> 502 ->
      CycleTLSClient._handle_response response
      = Raise (CycleTLSError ("HTTP " +:+ str_of_int (status_code response)
                              +:+ ": " +:+ text response))).
Proof.
  intros Hs. destruct (raise_for_status_error response Hs) as [e He].
  unfold CycleTLSClient._handle_response. rewrite He.
  split; [|split].
  - destruct (status_code response =? 400).
    + destruct (str_contains "Invalid identifier" (text response));
        [exists "Invalid browser profile: "; auto|].
      destruct (str_contains "timeout" (str_lower (text response)));
        [exists "Request timeout: "; auto | exists "Bad request: "; auto].
    + destruct (status_code response =? 502);
        [exists "Upstream request failed: "; auto|].
      exists ("HTTP " +:+ str_of_int (status_code response) +:+ ": ").
      left. by rewrite !str_app_assoc.
  - intros -> -> ->. reflexivity.
  - intros H4 H5.
    destruct (status_code response =? 400) eqn:E4; [lia|].
    destruct (status_code response =? 502) eqn:E5; [lia|]. reflexivity.
Qed.

Lemma handle_response_error_branches_witness :
  400 <= status_code ex_response_both_markers < 600
  /\ exists prefix,
       let m := prefix +:+ text ex_response_both_markers in
       CycleTLSClient._handle_response ex_response_both_markers
         = Raise (CycleTLSError m)
       \/ CycleTLSClient._handle_response ex_response_both_markers
          = Raise (CycleTLSTimeoutError m)
       \/ CycleTLSClient._handle_response ex_response_both_markers
          = Raise (CycleTLSInvalidProfileError m).
Proof.
  assert (400 <= status_code ex_response_both_markers < 600) as H
    by (cbn; lia).
  split; [exact H|].
  exact (proj1 (handle_response_error_branches ex_response_both_markers H)).
Defined.

(** ** More on [request] *)

Section RequestOutcomes.
Variable net : network.

Lemma handle_response_passes r :
  status_code r < 400 \/ 600 <= status_code r ->
  CycleTLSClient._handle_response r = Return r.
Proof.
  intros H. apply raise_for_status_none_iff in H.
  unfold CycleTLSClient._handle_response. by rewrite H.
Qed.

Lemma urlopen_connect_timeout retries strategy w log msg :
  (forall n w', net n w' = ConnectTimedOut msg) ->
  urlopen net retries strategy w log =
  (Failed (ConnectTimeout msg), (log ++ repeat w (S retries))%list).
Proof.
  intros Hnet. revert log.
  induction retries as [|n IH]; intros log;
    rewrite urlopen_unfold; cbv zeta; rewrite Hnet.
  - reflexivity.
  - rewrite IH. by rewrite app_repeat_cons.
Qed.

Lemma urlopen_read_timeout_unretried retries strategy w log msg :
  net (List.length log) w = ReadTimedOut msg ->
  _is_method_retryable (method w) = false ->
  urlopen net retries strategy w log
  = (Failed (ReadTimeout msg), (log ++ [w])%list).
Proof.
  intros Hnet Hm. rewrite urlopen_unfold; cbv zeta. by rewrite Hnet, Hm.
Qed.

(** Whatever happens, the session call sends copies of its one wire
    request and nothing else. *)
Lemma session_request_log strategy w log :
  exists k, snd (session_request net strategy w log) = (log ++ repeat w k)%list.
Proof.
  unfold session_request. destruct (transport_timeout w <=? 0).
  - exists 0%nat. cbn. by rewrite app_nil_r.
  - destruct (urlopen_log net (Z.to_nat (total strategy)) strategy w log)
      as (k & _ & Hk). by exists k.
Qed.

Lemma not_forced_outside_4xx_5xx proxy dt max_retries m s :
  s < 400 \/ 600 <= s ->
  is_retry (CycleTLSClient.retry_strategy
              (CycleTLSClient.__init__ proxy dt max_retries)) m s = false.
Proof.
  intros Hs. rewrite is_retry_init.
  rewrite bool_decide_eq_false_2; [apply andb_false_r|].
  rewrite !elem_of_cons, elem_of_nil. lia.
Qed.
End RequestOutcomes.

(** X7.  When the proxy's first answer has a 2xx status, the request is
    sent exactly once and the caller gets that answer unchanged, for every
    method. *)
Theorem request_returns_first_answer (net : network)
    (proxy : string) (dt max_retries : Z) (verb url : string)
    (profile : profile_arg) (session_id upstream_proxy : option string)
    (timeout : option Z) (headers : option (gmap string string))
    (kwargs : list (string * string)) (log : list WireRequest) (r : Response) :
  let self := CycleTLSClient.__init__ proxy dt max_retries in
  let w := request_wire self verb url profile session_id upstream_proxy
             timeout headers kwargs in
  -5 < CycleTLSClient.timeout_or_default self timeout ->
  net (List.length log) w = Responded r ->
  200 <= status_code r < 300 ->
  CycleTLSClient.request net self verb url profile session_id upstream_proxy
    timeout headers kwargs log
  = (Return r, (log ++ [w])%list).
Proof.
  intros self w Ht Hnet Hs.
  pose proof (request_unfold net self verb url profile session_id
                upstream_proxy timeout headers kwargs log) as H.
  cbv zeta in H. rewrite H. clear H. fold w.
  rewrite session_request_positive
    by (subst w; rewrite request_wire_timeout; lia).
  rewrite (urlopen_final net _ _ _ _ r Hnet).
  - rewrite handle_response_passes; [reflexivity | lia].
  - apply not_forced_outside_4xx_5xx. lia.
Qed.

Lemma request_returns_first_answer_witness :
  -5 < CycleTLSClient.timeout_or_default ex_client None
  /\ 200 <= status_code {| status_code := 200; reason := "";
                           response_url := "http://localhost:8080";
                           text := "{}" |} < 300
  /\ fst (CycleTLSClient.request ex_net_ok ex_client "POST"
            "https://httpbin.org/post" (ProfileEnum EDGE) None None None None
            [] [])
     = Return {| status_code := 200; reason := "";
                 response_url := "http://localhost:8080"; text := "{}" |}.
Proof.
  assert (-5 < CycleTLSClient.timeout_or_default ex_client None) as Ht
    by (vm_compute; reflexivity).
  assert (200 <= status_code {| status_code := 200; reason := "";
                                response_url := "http://localhost:8080";
                                text := "{}" |} < 300) as Hs
    by (cbn; lia).
  split; [exact Ht|]. split; [exact Hs|].
  exact (f_equal fst
           (request_returns_first_answer ex_net_ok "http://localhost:8080" 30 3
              "POST" "https://httpbin.org/post" (ProfileEnum EDGE) None None
              None None [] [] _ Ht eq_refl Hs)).
Defined.

(** X8.  When the proxy cannot be reached, every method is attempted
    [1 + max_retries] times, after which [request] raises the client's own
    error with the transport's message behind [Connection error: ]. *)
Theorem request_unreachable_proxy (net : network)
    (self : CycleTLSClient.client) (verb url : string)
    (profile : profile_arg) (session_id upstream_proxy : option string)
    (timeout : option Z) (headers : option (gmap string string))
    (kwargs : list (string * string)) (log : list WireRequest) (msg : string) :
  let w := request_wire self verb url profile session_id upstream_proxy
             timeout headers kwargs in
  -5 < CycleTLSClient.timeout_or_default self timeout ->
  (forall n w', net n w' = ConnectFailed msg) ->
  CycleTLSClient.request net self verb url profile session_id upstream_proxy
    timeout headers kwargs log
  = (Raise (CycleTLSError ("Connection error: " +:+ msg)),
     (log ++ repeat w (S (Z.to_nat (CycleTLSClient.total_retries self))))%list).
Proof.
  intros w Ht Hnet.
  pose proof (request_unfold net self verb url profile session_id
                upstream_proxy timeout headers kwargs log) as H.
  cbv zeta in H. rewrite H. clear H. fold w.
  rewrite session_request_positive
    by (subst w; rewrite request_wire_timeout; lia).
  by rewrite (urlopen_unreachable net _ _ _ _ msg Hnet).
Qed.

Lemma request_unreachable_proxy_witness :
  -5 < CycleTLSClient.timeout_or_default ex_client None
  /\ (forall n w', unreachable "refused" n w' = ConnectFailed "refused")
  /\ fst (CycleTLSClient.request (unreachable "refused") ex_client "POST"
            "https://httpbin.org/post" (ProfileEnum CHROME) None None None
            None [] [])
     = Raise (CycleTLSError "Connection error: refused").
Proof.
  assert (-5 < CycleTLSClient.timeout_or_default ex_client None) as Ht
    by (vm_compute; reflexivity).
  split; [exact Ht|]. split; [reflexivity|].
  exact (f_equal fst
           (request_unreachable_proxy (unreachable "refused") ex_client "POST"
              "https://httpbin.org/post" (ProfileEnum CHROME) None None None
              None [] [] "refused" Ht (fun _ _ => eq_refl))).
Defined.

Lemma urlopen_read_timeout_retried (net : network) retries strategy w log msg :
  (forall n w', net n w' = ReadTimedOut msg) ->
  _is_method_retryable (method w) = true ->
  urlopen net retries strategy w log =
  (Failed (ConnectionError msg), (log ++ repeat w (S retries))%list).
Proof.
  intros Hnet Hm. revert log.
  induction retries as [|n IH]; intros log;
    rewrite urlopen_unfold; cbv zeta; rewrite Hnet, Hm.
  - reflexivity.
  - rewrite IH. by rewrite app_repeat_cons.
Qed.

(** X9.  What a transport timeout turns into depends on its kind and on
    the method.  Connecting that times out on every attempt ends, after
    [1 + max_retries] attempts, in the client's timeout error, whose
    message names the declared timeout, not the one given to the
    transport.  A response that does not come in time ends in the same
    error after a single attempt for a method the retry strategy does not
    retry; for a method it retries, the request is attempted
    [1 + max_retries] times and ends in the client's plain error behind
    [Connection error: ], not in the timeout error. *)
Theorem request_transport_timeout (net : network)
    (self : CycleTLSClient.client) (verb url : string)
    (profile : profile_arg) (session_id upstream_proxy : option string)
    (timeout : option Z) (headers : option (gmap string string))
    (kwargs : list (string * string)) (log : list WireRequest) (msg : string) :
  let w := request_wire self verb url profile session_id upstream_proxy
             timeout headers kwargs in
  let t := CycleTLSClient.timeout_or_default self timeout in
  let out := CycleTLSClient.request net self verb url profile session_id
               upstream_proxy timeout headers kwargs log in
  -5 < t ->
  ((forall n w', net n w' = ConnectTimedOut msg) ->
   out = (Raise (CycleTLSTimeoutError
                   ("Request timed out after " +:+ str_of_int t +:+ "s")),
          (log ++ repeat w (S (Z.to_nat (CycleTLSClient.total_retries self))))%list))
  /\ (net (List.length log) w = ReadTimedOut msg ->
      _is_method_retryable verb = false ->
      out = (Raise (CycleTLSTimeoutError
                      ("Request timed out after " +:+ str_of_int t +:+ "s")),
             (log ++ [w])%list))
  /\ ((forall n w', net n w' = ReadTimedOut msg) ->
      _is_method_retryable verb = true ->
      snd out
      = (log ++ repeat w (S (Z.to_nat (CycleTLSClient.total_retries self))))%list
      /\ exists m, fst out = Raise (CycleTLSError ("Connection error: " +:+ m))).
Proof.
  intros w t out Ht.
  assert (out = CycleTLSClient.request net self verb url profile session_id
                  upstream_proxy timeout headers kwargs log) as Hout
    by reflexivity.
  pose proof (request_unfold net self verb url profile session_id
                upstream_proxy timeout headers kwargs log) as H.
  cbv zeta in H. rewrite H in Hout. clear H. fold w t in Hout.
  rewrite session_request_positive in Hout
    by (subst w; rewrite request_wire_timeout; lia).
  split; [|split].
  - intros Hnet. by rewrite (urlopen_connect_timeout net _ _ _ _ msg Hnet) in Hout.
  - intros Hnet Hm.
    by rewrite (urlopen_read_timeout_unretried net _ _ _ _ msg Hnet Hm) in Hout.
  - intros Hnet Hm.
    rewrite (urlopen_read_timeout_retried net _ _ w _ msg Hnet Hm) in Hout.
    rewrite Hout. split; [reflexivity | by eexists].
Qed.

Lemma request_transport_timeout_witness :
  -5 < CycleTLSClient.timeout_or_default ex_client (Some 7)
  /\ ((forall n w', connect_times_out "slow" n w' = ConnectTimedOut "slow") ->
      fst (CycleTLSClient.request (connect_times_out "slow")
             ex_client "GET" "https://httpbin.org/get" (ProfileEnum CHROME)
             None None (Some 7) None [] [])
      = Raise (CycleTLSTimeoutError "Request timed out after 7s")).
Proof.
  assert (-5 < CycleTLSClient.timeout_or_default ex_client (Some 7)) as Ht
    by (vm_compute; reflexivity).
  split; [exact Ht|]. intros Hnet.
  exact (f_equal fst
           (proj1 (request_transport_timeout (connect_times_out "slow")
                     ex_client "GET" "https://httpbin.org/get"
                     (ProfileEnum CHROME) None None (Some 7) None [] [] "slow"
                     Ht) Hnet)).
Defined.

Lemma handle_response_return_inv r r' :
  CycleTLSClient._handle_response r = Return r' ->
  r' = r /\ (status_code r < 400 \/ 600 <= status_code r).
Proof.
  rewrite <- raise_for_status_none_iff.
  unfold CycleTLSClient._handle_response.
  destruct (raise_for_status r) as [e|]; [|by intros [= ->]].
  repeat match goal with
         | |- context [if ?b then _ else _] => destruct b
         end; discriminate.
Qed.

(** X10.  [request] never returns a 4xx or 5xx answer: the status of a
    response it returns is outside 400..599, whatever the transport did. *)
Theorem request_return_is_proxy_answer (net : network)
    (self : CycleTLSClient.client) (verb url : string)
    (profile : profile_arg) (session_id upstream_proxy : option string)
    (timeout : option Z) (headers : option (gmap string string))
    (kwargs : list (string * string)) (log : list WireRequest) (r : Response) :
  fst (CycleTLSClient.request net self verb url profile session_id
         upstream_proxy timeout headers kwargs log) = Return r ->
  status_code r < 400 \/ 600 <= status_code r.
Proof.
  pose proof (request_unfold net self verb url profile session_id
                upstream_proxy timeout headers kwargs log) as H.
  cbv zeta in H. rewrite H. clear H.
  destruct (session_request _ _ _ _) as [[r0|e] log'] eqn:E; cbn [fst].
  - intros Hr. by apply handle_response_return_inv in Hr as [-> Hs].
  - by destruct (is_Timeout e), (is_ConnectionError e).
Qed.

Lemma request_return_is_proxy_answer_witness :
  fst (CycleTLSClient.request ex_net_ok ex_client "GET"
         "https://httpbin.org/get" (ProfileEnum CHROME) None None None None
         [] [])
  = Return {| status_code := 200; reason := "";
              response_url := "http://localhost:8080"; text := "{}" |}
  /\ (status_code {| status_code := 200; reason := "";
                     response_url := "http://localhost:8080";
                     text := "{}" |} < 400
      \/ 600 <= status_code {| status_code := 200; reason := "";
                               response_url := "http://localhost:8080";
                               text := "{}" |}).
Proof.
  assert (fst (CycleTLSClient.request ex_net_ok ex_client "GET"
                 "https://httpbin.org/get" (ProfileEnum CHROME) None None None
                 None [] [])
          = Return {| status_code := 200; reason := "";
                      response_url := "http://localhost:8080";
                      text := "{}" |}) as H by (vm_compute; reflexivity).
  split; [exact H|].
  exact (request_return_is_proxy_answer ex_net_ok ex_client "GET"
           "https://httpbin.org/get" (ProfileEnum CHROME) None None None
           None [] [] _ H).
Defined.

(** X11.  A timeout of 0 is falsy and therefore means no timeout given:
    both clients behave exactly as with [None], the transport waits for the
    default plus 5, and no [X-TIMEOUT] header is added (one among the extra
    headers is kept). *)
Theorem timeout_zero_means_default (net : network)
    (self : CycleTLSClient.client) (aself : AsyncCycleTLSClient.client)
    (verb url : string) (profile : profile_arg)
    (session_id upstream_proxy : option string)
    (headers : option (gmap string string)) (kwargs : list (string * string))
    (log : list WireRequest) :
  let w := request_wire self verb url profile session_id upstream_proxy
             (Some 0) headers kwargs in
  CycleTLSClient.request net self verb url profile session_id upstream_proxy
    (Some 0) headers kwargs log
  = CycleTLSClient.request net self verb url profile session_id upstream_proxy
      None headers kwargs log
  /\ AsyncCycleTLSClient.request net aself verb url profile session_id
       upstream_proxy (Some 0) headers kwargs log
     = AsyncCycleTLSClient.request net aself verb url profile session_id
         upstream_proxy None headers kwargs log
  /\ transport_timeout w = CycleTLSClient.default_timeout self + 5
  /\ wire_headers w !! "X-TIMEOUT" = opt_lookup "X-TIMEOUT" headers.
Proof.
  cbv zeta. split; [reflexivity|]. split; [reflexivity|].
  split; [reflexivity|].
  unfold request_wire, CycleTLSClient._make_headers. cbn [wire_headers].
  rewrite lookup_make_headers, lookup_base_timeout.
  cbn [ProxyConfig.timeout ProxyConfig.__init__
       CycleTLSClient.timeout_or_default int_truthy].
  change (0 =? 0) with true. cbn [negb].
  rewrite Z.eqb_refl. by destruct (opt_lookup "X-TIMEOUT" headers).
Qed.

(** X12.  The session's retry strategy goes by method.  When every answer
    has the same force-listed status, [get], [put], [delete] and [head]
    are each attempted [1 + max_retries] times, while [post] and [patch]
    are attempted once. *)
Theorem verbs_retried_by_method (net : network)
    (proxy : string) (dt max_retries : Z) (url : string)
    (profile : profile_arg) (session_id upstream_proxy : option string)
    (timeout : option Z) (headers : option (gmap string string))
    (kwargs : list (string * string)) (log : list WireRequest) (s : Z) :
  let self := CycleTLSClient.__init__ proxy dt max_retries in
  let attempts (out : result Response * list WireRequest) :=
    (List.length (snd out) - List.length log)%nat in
  -5 < CycleTLSClient.timeout_or_default self timeout ->
  (forall n w, exists r, net n w = Responded r /\ status_code r = s) ->
  s ∈ [429; 500; 502; 503; 504] ->
  attempts (CycleTLSClient.get net self url profile session_id upstream_proxy
              timeout headers kwargs log) = S (Z.to_nat max_retries)
  /\ attempts (CycleTLSClient.put net self url profile session_id
                 upstream_proxy timeout headers kwargs log)
     = S (Z.to_nat max_retries)
  /\ attempts (CycleTLSClient.delete net self url profile session_id
                 upstream_proxy timeout headers kwargs log)
     = S (Z.to_nat max_retries)
  /\ attempts (CycleTLSClient.head net self url profile session_id
                 upstream_proxy timeout headers kwargs log)
     = S (Z.to_nat max_retries)
  /\ attempts (CycleTLSClient.post net self url profile session_id
                 upstream_proxy timeout headers kwargs log) = 1%nat
  /\ attempts (CycleTLSClient.patch net self url profile session_id
                 upstream_proxy timeout headers kwargs log) = 1%nat.
Proof.
  intros self attempts Ht Hnet Hs.
  assert (forall verb, _is_method_retryable verb = true ->
            attempts (CycleTLSClient.request net self verb url profile
                        session_id upstream_proxy timeout headers kwargs log)
            = S (Z.to_nat max_retries)) as Hretried.
  { intros verb Hm. subst attempts self. cbv beta.
    rewrite (request_forced_status net proxy dt max_retries verb url profile
               session_id upstream_proxy timeout headers kwargs log s
               Ht Hnet Hs Hm).
    cbn [snd]. rewrite length_app, repeat_length. lia. }
  assert (forall verb, _is_method_retryable verb = false ->
            attempts (CycleTLSClient.request net self verb url profile
                        session_id upstream_proxy timeout headers kwargs log)
            = 1%nat) as Honce.
  { intros verb Hm. subst attempts self. cbv beta.
    destruct (request_unforced_status net proxy dt max_retries verb url
                profile session_id upstream_proxy timeout headers kwargs log s
                Ht Hnet Hm) as (r & _ & ->).
    cbn [snd]. rewrite length_app. cbn. lia. }
  unfold CycleTLSClient.get, CycleTLSClient.put, CycleTLSClient.delete,
    CycleTLSClient.head, CycleTLSClient.post, CycleTLSClient.patch.
  repeat split; (apply Hretried || apply Honce); reflexivity.
Qed.

Lemma verbs_retried_by_method_witness :
  -5 < CycleTLSClient.timeout_or_default ex_client None
  /\ (forall n w, exists r, ex_net_503 n w = Responded r /\ status_code r = 503)
  /\ (503 ∈ [429; 500; 502; 503; 504])
  /\ (List.length
        (snd (CycleTLSClient.delete ex_net_503 ex_client
                "https://httpbin.org/delete" (ProfileEnum SAFARI)
                None None None None [] [])) - 0)%nat
     = 4%nat.
Proof.
  assert (-5 < CycleTLSClient.timeout_or_default ex_client None) as Ht
    by (vm_compute; reflexivity).
  assert (503 ∈ [429; 500; 502; 503; 504]) as Hs
    by (rewrite !elem_of_cons; auto).
  split; [exact Ht|]. split; [apply always_status_responds|].
  split; [exact Hs|].
  destruct (verbs_retried_by_method ex_net_503 "http://localhost:8080" 30 3
              "https://httpbin.org/delete" (ProfileEnum SAFARI) None None None
              None [] [] 503 Ht (always_status_responds 503 "busy") Hs)
    as (_ & _ & Hdelete & _).
  exact Hdelete.
Defined.

(** ** Sessions *)

(** X13.  A request through a [SessionContext] is the client's request
    with the context's session identifier; a [session_id] passed by the
    caller is overwritten.  Every wire request it sends carries the
    context's identifier under [X-SESSION-ID] when that identifier is not
    empty, and no such header when it is empty, unless the extra headers
    bring their own. *)
Theorem session_context_request_carries_identifier (net : network)
    (sc : SessionContext.t) (verb url : string) (profile : profile_arg)
    (session_id_kwarg session_id_kwarg' upstream_proxy : option string)
    (timeout : option Z) (headers : option (gmap string string))
    (kwargs : list (string * string)) (log : list WireRequest) :
  let w := request_wire (SessionContext.client sc) verb url profile
             (Some (SessionContext.session_id sc)) upstream_proxy timeout
             headers kwargs in
  let out := SessionContext.request net sc verb url profile session_id_kwarg
               upstream_proxy timeout headers kwargs log in
  out = SessionContext.request net sc verb url profile session_id_kwarg'
          upstream_proxy timeout headers kwargs log
  /\ out = CycleTLSClient.request net (SessionContext.client sc) verb url
             profile (Some (SessionContext.session_id sc)) upstream_proxy
             timeout headers kwargs log
  /\ (exists k, snd out = (log ++ repeat w k)%list)
  /\ wire_headers w !! "X-SESSION-ID" =
       match opt_lookup "X-SESSION-ID" headers with
       | Some v => Some v
       | None =>
           if str_truthy (SessionContext.session_id sc)
           then Some (SessionContext.session_id sc) else None
       end.
Proof.
  cbv zeta. split; [reflexivity|]. split; [reflexivity|]. split.
  - unfold SessionContext.request. rewrite request_log.
    apply session_request_log.
  - unfold request_wire, CycleTLSClient._make_headers. cbn [wire_headers].
    by rewrite lookup_make_headers, lookup_base_session.
Qed.

(** ** Parsing the profile listing *)

Lemma str_has_app c (a b : string) :
  str_has c (a +:+ b) = str_has c a || str_has c b.
Proof.
  induction a as [|x a IH]; [reflexivity|].
  rewrite str_app_cons. cbn [str_has]. by rewrite IH, orb_assoc.
Qed.

Lemma str_after_prefix_spec (prefix s rest : string) :
  str_after_prefix prefix s = Some rest <-> s = prefix +:+ rest.
Proof.
  revert s. induction prefix as [|a prefix IH]; intros s.
  - cbn. split; [by intros [= ->] | by intros ->].
  - destruct s as [|b s]; [by split|].
    rewrite str_app_cons. cbn [str_after_prefix].
    destruct (Ascii.eqb_spec a b) as [->|Hab].
    + rewrite IH. split; [by intros -> | by intros [= ->]].
    + split; [discriminate | by intros [= ? _]].
Qed.

Lemma take_until_quote_spec (s : string) :
  str_has double_quote (take_until_quote s) = false
  /\ exists b, s = take_until_quote s +:+ b
               /\ (b = "" \/ str_first b = Some double_quote).
Proof.
  induction s as [|c s (IHq & b & IHs & IHb)].
  - split; [reflexivity|]. exists "". by split; [|left].
  - cbn [take_until_quote].
    destruct (Ascii.eqb_spec c double_quote) as [->|Hc].
    + split; [reflexivity|]. exists (String double_quote s).
      split; [reflexivity | by right].
    + split.
      * cbn [str_has]. rewrite IHq.
        by destruct (Ascii.eqb_spec c double_quote).
      * exists b. split; [|exact IHb]. rewrite str_app_cons. by rewrite <- IHs.
Qed.

(** X15.  What the search for the listing finds is not empty, contains no
    double quote, and stands in the message right behind the literal
    [Available profiles: ], running up to the next double quote or the end
    of the message.  A message without the literal gives nothing. *)
Theorem search_available_profiles_sound (msg : string) :
  (forall group,
     search_available_profiles msg = Some group ->
     group <> ""
     /\ str_has double_quote group = false
     /\ exists before after,
          msg = before +:+ "Available profiles: " +:+ group +:+ after
          /\ (after = "" \/ str_first after = Some double_quote))
  /\ (str_contains "Available profiles: " msg = false ->
      search_available_profiles msg = None).
Proof.
  split.
  - induction msg as [|c msg IH]; intros group.
    + cbn. discriminate.
    + cbn [search_available_profiles]. cbv zeta.
      destruct (str_after_prefix "Available profiles: " (String c msg))
        as [rest|] eqn:E.
      * apply str_after_prefix_spec in E.
        destruct (take_until_quote_spec rest) as (Hq & after & Hrest & Hafter).
        destruct (take_until_quote rest) as [|g0 g] eqn:Eg.
        -- intros H. destruct (IH _ H) as (? & ? & before & after' & -> & ?).
           repeat split; [done..|]. by exists (String c before), after'.
        -- intros [= <-]. split; [discriminate|]. split; [exact Hq|].
           exists "", after. split; [|exact Hafter].
           rewrite E, Hrest at 1. reflexivity.
      * intros H. destruct (IH _ H) as (? & ? & before & after' & -> & ?).
        repeat split; [done..|]. by exists (String c before), after'.
  - induction msg as [|c msg IH]; [reflexivity|].
    rewrite str_contains_cons. intros H.
    apply orb_false_iff in H as [Hhere Hrest].
    cbn [search_available_profiles]. cbv zeta.
    destruct (str_after_prefix "Available profiles: " (String c msg))
      as [rest|] eqn:E; [|by apply IH].
    apply str_after_prefix_spec in E.
    rewrite E, prefix_app in Hhere. discriminate.
Qed.

Lemma str_split_cons sep c rest :
  str_split sep (String c rest) =
  if Ascii.eqb c sep then "" :: str_split sep rest
  else match str_split sep rest with
       | h :: t => String c h :: t
       | [] => [String c ""]
       end.
Proof. reflexivity. Qed.

Lemma str_split_nonempty sep s : str_split sep s <> [].
Proof.
  destruct s as [|c rest]; [discriminate|].
  rewrite str_split_cons. destruct (Ascii.eqb c sep); [discriminate|].
  by destruct (str_split sep rest).
Qed.

Lemma concat_cons_nonempty sep x (l : list string) :
  l <> [] -> String.concat sep (x :: l) = x +:+ sep +:+ String.concat sep l.
Proof. by destruct l. Qed.

(** Splitting at a separator loses nothing: joining the pieces with the
    separator gives the string back.  There is always at least one piece
    (the empty string gives one empty piece), and no piece contains the
    separator. *)
Lemma str_split_join (sep : ascii) (s : string) :
  String.concat (String sep "") (str_split sep s) = s
  /\ str_split sep s <> []
  /\ Forall (fun piece => str_has sep piece = false) (str_split sep s).
Proof.
  split; [|split; [apply str_split_nonempty|]].
  - induction s as [|c rest IH]; [reflexivity|].
    rewrite str_split_cons.
    destruct (Ascii.eqb_spec c sep) as [->|Hc].
    + rewrite concat_cons_nonempty by apply str_split_nonempty.
      by rewrite IH.
    + pose proof (str_split_nonempty sep rest) as Hne.
      destruct (str_split sep rest) as [|h t]; [done|].
      destruct t as [|h' t].
      * cbn in IH. cbn. by rewrite IH.
      * rewrite concat_cons_nonempty in IH by discriminate.
        rewrite concat_cons_nonempty by discriminate.
        rewrite str_app_cons. by rewrite IH.
  - induction s as [|c rest IH]; [by repeat constructor|].
    rewrite str_split_cons.
    destruct (Ascii.eqb_spec c sep) as [->|Hc]; [by constructor|].
    pose proof (str_split_nonempty sep rest) as Hne.
    destruct (str_split sep rest) as [|h t]; [done|].
    apply Forall_cons in IH as [Hh Ht]. constructor; [|exact Ht].
    cbn [str_has]. rewrite Hh. by destruct (Ascii.eqb_spec c sep).
Qed.

Lemma str_rstrip_cons c rest :
  str_rstrip (String c rest) =
  match str_rstrip rest with
  | EmptyString => if is_space c then EmptyString else String c EmptyString
  | rest' => String c rest'
  end.
Proof. reflexivity. Qed.

Lemma all_space_app (a b : string) :
  all_space (a +:+ b) = all_space a && all_space b.
Proof.
  induction a as [|x a IH]; [reflexivity|].
  rewrite str_app_cons. cbn [all_space]. by rewrite IH, andb_assoc.
Qed.

Lemma str_lstrip_spec (s : string) :
  (exists a, s = a +:+ str_lstrip s /\ all_space a = true)
  /\ (forall c, str_first (str_lstrip s) = Some c -> is_space c = false).
Proof.
  induction s as [|c s ((a & IHs & IHa) & IHf)].
  - split; [by exists "" | discriminate].
  - cbn [str_lstrip]. destruct (is_space c) eqn:E.
    + split; [|exact IHf]. exists (String c a).
      rewrite str_app_cons, <- IHs. cbn [all_space]. by rewrite E, IHa.
    + split; [by exists ""|]. by intros ? [= <-].
Qed.

Lemma str_rstrip_spec (s : string) :
  (exists b, s = str_rstrip s +:+ b /\ all_space b = true)
  /\ (forall c, str_last (str_rstrip s) = Some c -> is_space c = false)
  /\ (forall c, str_rstrip s <> "" -> str_first s = Some c ->
                str_first (str_rstrip s) = Some c).
Proof.
  induction s as [|c s ((b & IHs & IHb) & IHl & IHf)].
  - split; [by exists ""|]. split; [discriminate | done].
  - rewrite str_rstrip_cons.
    destruct (str_rstrip s) as [|c' r'] eqn:E.
    + change (s = b) in IHs. destruct (is_space c) eqn:Ec.
      * split; [|split; [discriminate | done]].
        exists (String c b). rewrite IHs. cbn [all_space].
        by rewrite Ec, IHb.
      * split; [|split].
        -- exists b. by rewrite IHs.
        -- by intros ? [= <-].
        -- by intros ? _ [= <-].
    + split; [|split].
      * exists b. rewrite str_app_cons. by rewrite <- IHs.
      * exact IHl.
      * by intros ? _ [= <-].
Qed.

Lemma str_has_strip c s : str_has c (str_strip s) = true -> str_has c s = true.
Proof.
  unfold str_strip.
  destruct (str_lstrip_spec s) as ((a & Hs & _) & _).
  destruct (str_rstrip_spec (str_lstrip s)) as ((b & Hl & _) & _).
  intros H. rewrite Hs, Hl, !str_has_app, H. by rewrite orb_true_r.
Qed.

(** [strip] removes white space at both ends and nothing else: the
    argument is the result with white space before and after it, the
    result neither starts nor ends with white space, and stripping it
    again changes nothing. *)
Lemma str_strip_spec (s : string) :
  (exists a b, s = a +:+ str_strip s +:+ b
               /\ all_space a = true /\ all_space b = true)
  /\ (forall c, str_first (str_strip s) = Some c -> is_space c = false)
  /\ (forall c, str_last (str_strip s) = Some c -> is_space c = false)
  /\ str_strip (str_strip s) = str_strip s.
Proof.
  unfold str_strip.
  destruct (str_lstrip_spec s) as ((a & Hs & Ha) & Hfirst).
  destruct (str_rstrip_spec (str_lstrip s)) as ((b & Hl & Hb) & Hlast & Hkeep).
  assert (forall c, str_first (str_rstrip (str_lstrip s)) = Some c ->
                    is_space c = false) as Hfirst'.
  { intros c Hc. apply Hfirst.
    destruct (str_rstrip (str_lstrip s)) as [|x r] eqn:E; [discriminate|].
    injection Hc as ->. rewrite Hl. reflexivity. }
  split; [|split; [exact Hfirst' | split; [exact Hlast|]]].
  - exists a, b. split; [|by split]. rewrite Hs at 1. by rewrite Hl at 1.
  - assert (str_lstrip (str_rstrip (str_lstrip s))
            = str_rstrip (str_lstrip s)) as ->.
    { destruct (str_rstrip (str_lstrip s)) as [|x r] eqn:E; [reflexivity|].
      cbn [str_lstrip]. by rewrite (Hfirst' x eq_refl). }
    set (u := str_lstrip s) in *. clearbody u. clear.
    induction u as [|c u IH]; [reflexivity|].
    rewrite str_rstrip_cons.
    destruct (str_rstrip u) as [|c' r'] eqn:E.
    + destruct (is_space c) eqn:Ec; [reflexivity|].
      rewrite str_rstrip_cons. cbn [str_rstrip]. by rewrite Ec.
    + rewrite str_rstrip_cons, IH. reflexivity.
Qed.

(** X16.  The names read off an ASCII listing are at least one, and none
    of them contains a comma or a double quote or starts or ends with
    white space. *)
Theorem parsed_profile_names_clean (msg group : string) :
  search_available_profiles msg = Some group ->
  str_isascii group = true ->
  let names := map str_strip (str_split "," group) in
  names <> []
  /\ Forall (fun name =>
               str_has "," name = false
               /\ str_has double_quote name = false
               /\ (forall c, str_first name = Some c -> is_space c = false)
               /\ (forall c, str_last name = Some c -> is_space c = false))
       names.
Proof.
  intros Hsearch _ names. subst names.
  assert (str_has double_quote group = false) as Hq.
  { revert Hsearch. clear. revert group.
    induction msg as [|c msg IH]; intros group; [discriminate|].
    cbn [search_available_profiles]. cbv zeta.
    destruct (str_after_prefix "Available profiles: " (String c msg))
      as [rest|]; [|apply IH].
    destruct (take_until_quote_spec rest) as (Hq & _).
    destruct (take_until_quote rest); [apply IH | by intros [= <-]]. }
  destruct (str_split_join "," group) as (Hjoin & Hne & Hpieces).
  split.
  - destruct (str_split "," group); [done | discriminate].
  - apply Forall_fmap. apply Forall_forall. intros piece Hpiece.
    unfold compose. cbv beta.
    rewrite Forall_forall in Hpieces.
    destruct (str_strip_spec piece) as (_ & Hfirst & Hlast & _).
    split; [|split; [|split; [exact Hfirst | exact Hlast]]].
    + destruct (str_has "," (str_strip piece)) eqn:E; [|reflexivity].
      apply str_has_strip in E. by rewrite (Hpieces piece Hpiece) in E.
    + destruct (str_has double_quote (str_strip piece)) eqn:E; [|reflexivity].
      apply str_has_strip in E.
      assert (str_has double_quote group = true) as Hg; [|congruence].
      rewrite <- Hjoin. clear -Hpiece E.
      induction (str_split "," group) as [|x l IH]; [by inversion Hpiece|].
      destruct l as [|y l].
      * apply list_elem_of_singleton in Hpiece as ->. exact E.
      * rewrite concat_cons_nonempty by discriminate.
        rewrite !str_has_app.
        apply elem_of_cons in Hpiece as [->|Hin];
          [by rewrite E | rewrite (IH Hin); by rewrite !orb_true_r].
Qed.

Lemma parsed_profile_names_clean_witness :
  search_available_profiles
    "Invalid identifier: x. Available profiles: chrome, firefox"
  = Some "chrome, firefox"
  /\ str_isascii "chrome, firefox" = true
  /\ map str_strip (str_split "," "chrome, firefox") <> [].
Proof.
  assert (search_available_profiles
            "Invalid identifier: x. Available profiles: chrome, firefox"
          = Some "chrome, firefox") as H by reflexivity.
  assert (str_isascii "chrome, firefox" = true) as Ha by reflexivity.
  split; [exact H|]. split; [exact Ha|].
  exact (proj1 (parsed_profile_names_clean _ _ H Ha)).
Defined.

(** ** Profile discovery *)

Section ProfileDiscovery.
Variable net : network.
Variable json : Type.
Variable json_loads : string -> json + string.

Lemma get_available_profiles_unfold self log :
  CycleTLSClient.get_available_profiles net json json_loads self log =
  let '(health, log1) :=
    CycleTLSClient.health_check net json json_loads self log in
  match health with
  | Raise e => (Raise e, log1)
  | Return _ =>
      let '(probe, log2) :=
        CycleTLSClient.get net self "https://httpbin.org/get"
          (ProfileStr "invalid-profile-test") None None None None [] log1 in
      (match probe with
       | Raise (CycleTLSInvalidProfileError msg) =>
           match search_available_profiles msg with
           | Some group => Return (map str_strip (str_split "," group))
           | None => Return BrowserProfile_values
           end
       | Raise e => Raise e
       | Return _ => Return BrowserProfile_values
       end, log2)
  end.
Proof.
  unfold CycleTLSClient.get_available_profiles, io_bind.
  destruct (CycleTLSClient.health_check _ _ _ _ _) as [[j|e] log1];
    [|reflexivity].
  destruct (CycleTLSClient.get _ _ _ _ _ _ _ _ _ _) as [[r|e] log2];
    [reflexivity|].
  destruct e; try reflexivity.
  by destruct (search_available_profiles msg).
Qed.

Lemma health_check_log self log :
  exists k, snd (CycleTLSClient.health_check net json json_loads self log)
            = (log ++ repeat (health_wire self) k)%list.
Proof.
  rewrite health_check_unfold.
  destruct (urlopen_log net (Z.to_nat (CycleTLSClient.total_retries self))
              (CycleTLSClient.retry_strategy self) (health_wire self) log)
    as (k & _ & Hk).
  exists k. rewrite <- Hk. by destruct (urlopen _ _ _ _ _).
Qed.

(** The health check answered at once with a status below 400 and a body
    that parses. *)
Lemma health_check_first_answer proxy dt max_retries log rh j :
  let self := CycleTLSClient.__init__ proxy dt max_retries in
  net (List.length log) (health_wire self) = Responded rh ->
  status_code rh < 400 ->
  json_loads (text rh) = inl j ->
  CycleTLSClient.health_check net json json_loads self log
  = (Return j, (log ++ [health_wire self])%list).
Proof.
  intros self Hnet Hs Hj. rewrite health_check_unfold.
  rewrite (urlopen_final net _ _ _ _ rh Hnet).
  - by rewrite (raise_for_status_below_400 rh Hs), Hj.
  - apply not_forced_outside_4xx_5xx. by left.
Qed.

(** The probe answered at once with a status the session does not retry. *)
Lemma probe_first_answer proxy dt max_retries log rp :
  let self := CycleTLSClient.__init__ proxy dt max_retries in
  let probe := request_wire self "GET" "https://httpbin.org/get"
                 (ProfileStr "invalid-profile-test") None None None None [] in
  -5 < dt ->
  net (List.length log) probe = Responded rp ->
  status_code rp ∉ [429; 500; 502; 503; 504] ->
  CycleTLSClient.get net self "https://httpbin.org/get"
    (ProfileStr "invalid-profile-test") None None None None [] log
  = (CycleTLSClient._handle_response rp, (log ++ [probe])%list).
Proof.
  intros self probe Ht Hnet Hs. unfold CycleTLSClient.get.
  pose proof (request_unfold net self "GET" "https://httpbin.org/get"
                (ProfileStr "invalid-profile-test") None None None None []
                log) as H.
  cbv zeta in H. rewrite H. clear H. fold probe.
  rewrite session_request_positive
    by (subst probe; rewrite request_wire_timeout; cbn; lia).
  rewrite (urlopen_final net _ _ _ _ rp Hnet); [reflexivity|].
  subst self. rewrite is_retry_init.
  rewrite (bool_decide_eq_false_2 _ Hs). apply andb_false_r.
Qed.
End ProfileDiscovery.

Lemma handle_response_invalid_identifier r :
  status_code r = 400 ->
  str_contains "Invalid identifier" (text r) = true ->
  CycleTLSClient._handle_response r
  = Raise (CycleTLSInvalidProfileError ("Invalid browser profile: " +:+ text r)).
Proof.
  intros Hs Hm. unfold CycleTLSClient._handle_response, raise_for_status.
  by rewrite Hs, Hm.
Qed.

(** X17.  When the health check fails, [get_available_profiles] raises the
    health check's error and never sends the probe: everything it sent
    went to [/health]. *)
Theorem get_available_profiles_health_failure (net : network) (json : Type)
    (json_loads : string -> json + string) (self : CycleTLSClient.client)
    (log : list WireRequest) (e : exn) :
  fst (CycleTLSClient.health_check net json json_loads self log) = Raise e ->
  CycleTLSClient.get_available_profiles net json json_loads self log
  = (Raise e, snd (CycleTLSClient.health_check net json json_loads self log))
  /\ exists k,
       snd (CycleTLSClient.get_available_profiles net json json_loads self log)
       = (log ++ repeat (health_wire self) k)%list.
Proof.
  intros Hh. rewrite get_available_profiles_unfold.
  destruct (health_check_log net json json_loads self log) as [k Hk].
  destruct (CycleTLSClient.health_check _ _ _ _ _) as [h log1].
  cbn [fst snd] in *. subst h. split; [reflexivity | by exists k].
Qed.

Lemma get_available_profiles_health_failure_witness :
  fst (CycleTLSClient.health_check (unreachable "refused") string
         ex_json_loads ex_client [])
  = Raise (CycleTLSError "Health check failed: refused")
  /\ fst (CycleTLSClient.get_available_profiles (unreachable "refused") string
            ex_json_loads ex_client [])
     = Raise (CycleTLSError "Health check failed: refused").
Proof.
  assert (fst (CycleTLSClient.health_check (unreachable "refused") string
                 ex_json_loads ex_client [])
          = Raise (CycleTLSError "Health check failed: refused")) as H
    by (vm_compute; reflexivity).
  split; [exact H|].
  exact (f_equal fst
           (proj1 (get_available_profiles_health_failure
                     (unreachable "refused") string ex_json_loads ex_client
                     [] _ H))).
Defined.

(** X18.  With a proxy that answers the health check with a 2xx status and
    a body that parses, and rejects the probe with a 400 whose ASCII body
    names an invalid identifier, [get_available_profiles] sends two
    requests, the health check and then the probe with the identifier
    [invalid-profile-test], and returns the names of the listing in the
    proxy's message, split at the commas and stripped; without a listing
    in the message it returns the nine built-in identifiers. *)
Theorem get_available_profiles_reads_listing (net : network) (json : Type)
    (json_loads : string -> json + string) (proxy : string)
    (dt max_retries : Z) (log : list WireRequest)
    (rh rp : Response) (j : json) :
  let self := CycleTLSClient.__init__ proxy dt max_retries in
  let probe := request_wire self "GET" "https://httpbin.org/get"
                 (ProfileStr "invalid-profile-test") None None None None [] in
  -5 < dt ->
  net (List.length log) (health_wire self) = Responded rh ->
  200 <= status_code rh < 300 ->
  json_loads (text rh) = inl j ->
  net (S (List.length log)) probe = Responded rp ->
  status_code rp = 400 ->
  str_isascii (text rp) = true ->
  str_contains "Invalid identifier" (text rp) = true ->
  CycleTLSClient.get_available_profiles net json json_loads self log
  = (Return
       match search_available_profiles
               ("Invalid browser profile: " +:+ text rp) with
       | Some group => map str_strip (str_split "," group)
       | None => BrowserProfile_values
       end,
     (log ++ [health_wire self; probe])%list)
  /\ wire_headers probe !! "X-IDENTIFIER" = Some "invalid-profile-test".
Proof.
  intros self probe Ht Hh Hhs Hj Hp Hps _ Hmarker. subst probe self.
  assert (status_code rh < 400) as Hhs' by lia. split.
  - rewrite get_available_profiles_unfold.
    rewrite (health_check_first_answer net json json_loads proxy dt
               max_retries log rh j Hh Hhs' Hj).
    rewrite (probe_first_answer net proxy dt max_retries _ rp Ht).
    + rewrite (handle_response_invalid_identifier rp Hps Hmarker).
      rewrite <- app_assoc.
      by destruct (search_available_profiles _).
    + rewrite length_app. cbn [List.length].
      replace (List.length log + 1)%nat with (S (List.length log)) by lia.
      exact Hp.
    + rewrite Hps, !elem_of_cons, elem_of_nil. lia.
  - unfold request_wire, CycleTLSClient._make_headers.
    cbn [wire_headers]. by rewrite lookup_make_headers, lookup_base_identifier.
Qed.


Lemma get_available_profiles_reads_listing_witness :
  -5 < 30
  /\ 200 <= status_code {| status_code := 200; reason := "OK";
                           response_url := "http://localhost:8080/health";
                           text := "{}" |} < 300
  /\ fst (CycleTLSClient.get_available_profiles ex_net_discovery string
            ex_json_loads ex_client [])
     = Return ["chrome"; "firefox"; "edge"].
Proof.
  assert (-5 < 30) as Ht by lia.
  assert (200 <= status_code {| status_code := 200; reason := "OK";
                                response_url := "http://localhost:8080/health";
                                text := "{}" |} < 300) as Hs by (cbn; lia).
  split; [exact Ht|]. split; [exact Hs|].
  exact (f_equal fst
           (proj1 (get_available_profiles_reads_listing ex_net_discovery
                     string ex_json_loads "http://localhost:8080" 30 3 []
                     _ _ "{}" Ht eq_refl Hs eq_refl eq_refl eq_refl
                     eq_refl eq_refl))).
Defined.

(** X19.  With a proxy that answers the health check with a 2xx status and
    a body that parses, a probe that the proxy accepts (a 2xx status)
    makes [get_available_profiles] return the nine built-in identifiers; a
    probe that fails in another way than with the invalid-profile error,
    here a 400 that only carries the timeout marker, is not turned into
    the fallback: its error is raised. *)
Theorem get_available_profiles_fallback_and_errors (net : network)
    (json : Type) (json_loads : string -> json + string) (proxy : string)
    (dt max_retries : Z) (log : list WireRequest)
    (rh rp : Response) (j : json) :
  let self := CycleTLSClient.__init__ proxy dt max_retries in
  let probe := request_wire self "GET" "https://httpbin.org/get"
                 (ProfileStr "invalid-profile-test") None None None None [] in
  let out := CycleTLSClient.get_available_profiles net json json_loads self
               log in
  -5 < dt ->
  net (List.length log) (health_wire self) = Responded rh ->
  200 <= status_code rh < 300 ->
  json_loads (text rh) = inl j ->
  net (S (List.length log)) probe = Responded rp ->
  (200 <= status_code rp < 300 ->
   out = (Return BrowserProfile_values,
          (log ++ [health_wire self; probe])%list))
  /\ (status_code rp = 400 ->
      str_contains "Invalid identifier" (text rp) = false ->
      str_contains "timeout" (str_lower (text rp)) = true ->
      out = (Raise (CycleTLSTimeoutError ("Request timeout: " +:+ text rp)),
             (log ++ [health_wire self; probe])%list)).
Proof.
  intros self probe out Ht Hh Hhs Hj Hp. subst out probe self.
  assert (status_code rh < 400) as Hhs' by lia.
  rewrite get_available_profiles_unfold.
  rewrite (health_check_first_answer net json json_loads proxy dt
             max_retries log rh j Hh Hhs' Hj).
  assert (net (List.length (log ++ [health_wire
                              (CycleTLSClient.__init__ proxy dt max_retries)]))
            (request_wire (CycleTLSClient.__init__ proxy dt max_retries)
               "GET" "https://httpbin.org/get"
               (ProfileStr "invalid-profile-test") None None None None [])
          = Responded rp) as Hp'.
  { rewrite length_app. cbn [List.length].
    replace (List.length log + 1)%nat with (S (List.length log)) by lia.
    exact Hp. }
  split.
  - intros Hs.
    rewrite (probe_first_answer net proxy dt max_retries _ rp Ht Hp').
    + rewrite handle_response_passes by lia.
      by rewrite <- app_assoc.
    + rewrite !elem_of_cons, elem_of_nil. lia.
  - intros Hs Hinv Htimeout.
    rewrite (probe_first_answer net proxy dt max_retries _ rp Ht Hp').
    + unfold CycleTLSClient._handle_response, raise_for_status.
      rewrite Hs, Hinv, Htimeout. cbn. by rewrite <- app_assoc.
    + rewrite Hs, !elem_of_cons, elem_of_nil. lia.
Qed.

Lemma get_available_profiles_fallback_and_errors_witness :
  -5 < 30
  /\ 200 <= status_code {| status_code := 200; reason := "";
                           response_url := "http://localhost:8080/health";
                           text := "{}" |} < 300
  /\ (200 <= status_code {| status_code := 200; reason := "";
                            response_url := "http://localhost:8080";
                            text := "{}" |} < 300 ->
      fst (CycleTLSClient.get_available_profiles ex_net_ok string
             ex_json_loads ex_client [])
      = Return BrowserProfile_values).
Proof.
  assert (-5 < 30) as Ht by lia.
  assert (200 <= status_code {| status_code := 200; reason := "";
                                response_url := "http://localhost:8080/health";
                                text := "{}" |} < 300) as Hs by (cbn; lia).
  split; [exact Ht|]. split; [exact Hs|]. intros Hp.
  exact (f_equal fst
           (proj1 (get_available_profiles_fallback_and_errors ex_net_ok
                     string ex_json_loads "http://localhost:8080" 30 3 []
                     _ _ "{}" Ht eq_refl Hs eq_refl eq_refl) Hp)).
Defined.

(** ** More on the asynchronous client *)

(** X20.  A client that was constructed but not entered as a context
    manager has no session: every request raises [RuntimeError] and
    nothing is sent.  Entering it opens the session and keeps the proxy
    URL and the default timeout. *)
Theorem async_request_needs_open_session (net : network)
    (proxy : string) (dt : Z) (verb url : string) (profile : profile_arg)
    (session_id upstream_proxy : option string) (timeout : option Z)
    (headers : option (gmap string string)) (kwargs : list (string * string))
    (log : list WireRequest) :
  let aself := AsyncCycleTLSClient.__init__ proxy dt in
  AsyncCycleTLSClient.request net aself verb url profile session_id
    upstream_proxy timeout headers kwargs log
  = (Raise (RuntimeError "Client must be used in async context manager"), log)
  /\ AsyncCycleTLSClient.get net aself url profile session_id
       upstream_proxy timeout headers kwargs log
     = (Raise (RuntimeError "Client must be used in async context manager"),
        log)
  /\ AsyncCycleTLSClient.post net aself url profile session_id
       upstream_proxy timeout headers kwargs log
     = (Raise (RuntimeError "Client must be used in async context manager"),
        log)
  /\ AsyncCycleTLSClient.session (AsyncCycleTLSClient.__aenter__ aself) = true
  /\ AsyncCycleTLSClient.proxy_url (AsyncCycleTLSClient.__aenter__ aself)
     = rstrip_slash proxy
  /\ AsyncCycleTLSClient.default_timeout (AsyncCycleTLSClient.__aenter__ aself)
     = dt.
Proof. cbv zeta. repeat split; reflexivity. Qed.



(** ** More on the thread pool *)

(** X22.  Each pool request has a session of its own: [make_request] sends
    its wire request at least once, under the session identifier
    [concurrent-<request_id>], different requests use different session
    identifiers, and the tuple that comes back starts with the request's
    own id whether the request worked or not. *)
Theorem make_request_own_session (net : network)
    (client : CycleTLSClient.client) (i j : Z) (log : list WireRequest) :
  -5 < CycleTLSClient.default_timeout client ->
  i <> j ->
  (exists k, (1 <= k)%nat
             /\ snd (make_request net client i log)
                = (log ++ repeat (make_request_wire client i) k)%list)
  /\ wire_headers (make_request_wire client i) !! "X-SESSION-ID"
     = Some ("concurrent-" +:+ str_of_int i)
  /\ wire_headers (make_request_wire client i) !! "X-SESSION-ID"
     <> wire_headers (make_request_wire client j) !! "X-SESSION-ID"
  /\ fst (fst (fst (make_request net client i log))) = PInt i.
Proof.
  intros Ht Hij.
  assert (forall n, wire_headers (make_request_wire client n) !! "X-SESSION-ID"
                    = Some ("concurrent-" +:+ str_of_int n)) as Hsession.
  { intros n. unfold make_request_wire, request_wire,
      CycleTLSClient._make_headers. cbn [wire_headers].
    rewrite lookup_make_headers, lookup_base_session. reflexivity. }
  split; [|split; [apply Hsession | split]].
  - unfold make_request, io_bind, CycleTLSClient.get.
    destruct (request_sends net client "GET"
                ("https://httpbin.org/get?request_id=" +:+ str_of_int i)
                (ProfileEnum CHROME)
                (Some ("concurrent-" +:+ str_of_int i)) None None None []
                log Ht) as (k & Hk & Hlog).
    exists k. split; [lia|].
    fold (make_request_wire client i) in Hlog. rewrite <- Hlog.
    by destruct (CycleTLSClient.request _ _ _ _ _ _ _ _ _ _ _).
  - rewrite !Hsession. intros H. apply (inj Some) in H.
    apply (inj (String.app "concurrent-")) in H.
    unfold str_of_int in H. by apply (inj pretty) in H.
  - rewrite make_request_returns_outcome.
    by destruct (fst (CycleTLSClient.get _ _ _ _ _ _ _ _ _ _)).
Qed.

Lemma make_request_own_session_witness :
  -5 < CycleTLSClient.default_timeout ex_client
  /\ 3 <> 7
  /\ wire_headers (make_request_wire ex_client 3) !! "X-SESSION-ID"
     <> wire_headers (make_request_wire ex_client 7) !! "X-SESSION-ID".
Proof.
  assert (-5 < CycleTLSClient.default_timeout ex_client) as Ht
    by (vm_compute; reflexivity).
  assert (3 <> 7) as Hij by lia.
  split; [exact Ht|]. split; [exact Hij|].
  destruct (make_request_own_session ex_net_ok ex_client 3 7 [] Ht Hij)
    as (_ & _ & Hne & _).
  exact Hne.
Defined.

Lemma successful_cons x (l : list tuple3) :
  let hit := match x with
             | (_, PInt n, _) => n =? 200
             | (_, PStr _, _) => false
             end in
  successful (x :: l) = ((if hit then 1 else 0) + successful l)%nat.
Proof.
  cbv zeta. unfold successful. cbn [List.filter].
  destruct x as [[a [n|e]] c]; [|reflexivity].
  by destruct (n =? 200).
Qed.

Lemma successful_Permutation (l1 l2 : list tuple3) :
  l1 ≡ₚ l2 -> successful l1 = successful l2.
Proof.
  induction 1 as [|x l1 l2 _ IH|x y l|l1 l2 l3 _ IH1 _ IH2].
  - reflexivity.
  - by rewrite !successful_cons, IH.
  - rewrite !successful_cons. lia.
  - by rewrite IH1.
Qed.

(** X23.  The number of successful requests that the pool reports does not
    depend on the order in which the requests complete, and it counts
    exactly the requests that came back with status 200: errors and other
    statuses are left out. *)
Theorem successful_independent_of_completion_order
    (got : nat -> result Response) (completion completion' : list nat) :
  (completion ≡ₚ completion') ->
  fst (run_concurrent_examples got completion)
  = fst (run_concurrent_examples got completion')
  /\ fst (run_concurrent_examples got completion)
     = List.length
         (List.filter
            (fun i => match got i with
                      | Return r => status_code r =? 200
                      | Raise _ => false
                      end) completion).
Proof.
  intros Hperm. unfold run_concurrent_examples. cbn [fst]. split.
  - apply successful_Permutation. unfold collect_results.
    by apply Permutation_map.
  - clear. unfold collect_results.
    induction completion as [|i l IH]; [reflexivity|].
    cbn [map List.filter]. rewrite successful_cons, IH.
    unfold make_request_outcome.
    destruct (got i) as [r|e]; [|reflexivity].
    by destruct (status_code r =? 200).
Qed.

Lemma successful_independent_of_completion_order_witness :
  ([2; 0; 1]%nat ≡ₚ [0; 1; 2]%nat)
  /\ fst (run_concurrent_examples ex_async_got [2; 0; 1]%nat)
     = fst (run_concurrent_examples ex_async_got [0; 1; 2]%nat).
Proof.
  assert ([2; 0; 1]%nat ≡ₚ [0; 1; 2]%nat) as H.
  { apply (Permutation_cons_app [0; 1]%nat [] 2%nat). reflexivity. }
  split; [exact H|].
  exact (proj1 (successful_independent_of_completion_order ex_async_got
                  _ _ H)).
Defined.
